(** * pdf_chapter_extractor: splitting a PDF into chapters by its outline

    A shallow embedding of [pdf_chapter_extractor.py] and the properties of
    its bookmark walker, level prober, range resolver, chapter emitter and
    file name sanitizer. *)

From Stdlib Require Import ZArith NArith Lia String Ascii Decimal DecimalNat.
From stdpp Require Import base list gmap sets sorting.

#[local] Set Warnings "-register-all,-clear-no-such-hyp".

Local Open Scope Z_scope.

(** ** Python strings

    A Python [str] is a sequence of Unicode code points; [len] counts code
    points and slicing cuts between them. *)

Definition str := list N.

(** A literal of the development, read as the code points of its bytes
    (only used on ASCII text). *)
Definition py (s : string) : str := map N_of_ascii (list_ascii_of_string s).

(** ** sanitize_filename *)

(** The character class of the first [re.sub], by code point: less-than 60,
    greater-than 62, colon 58, double quote 34, slash 47, backslash 92,
    vertical bar 124, question mark 63 and asterisk 42. *)
Definition invalid_chars : list N := [60; 62; 58; 34; 47; 92; 124; 63; 42]%N.

Definition is_invalid (c : N) : bool := bool_decide (c ∈ invalid_chars).

(** [\s] on a [str] pattern, and the characters [str.strip()] removes: the
    code points for which [str.isspace] holds. *)
Definition is_space (c : N) : bool :=
  (((9 <=? c) && (c <=? 13)) || ((28 <=? c) && (c <=? 32))
   || (c =? 133) || (c =? 160) || (c =? 5760)
   || ((8192 <=? c) && (c <=? 8202))
   || (c =? 8232) || (c =? 8233) || (c =? 8239) || (c =? 8287)
   || (c =? 12288))%N.

(** The first [re.sub]: every character of the class becomes an underscore
    (code point 95). *)
Definition sub_invalid (name : str) : str :=
  map (fun c => if is_invalid c then 95%N else c) name.

(** The second [re.sub], of the pattern [\s+] by one space: every maximal
    run of white space becomes one space. [in_run] tells that the previous character belonged to a run whose
    replacement has been written already. *)
Fixpoint sub_spaces (in_run : bool) (name : str) : str :=
  match name with
  | [] => []
  | c :: rest =>
      if is_space c
      then (if in_run then sub_spaces true rest else 32%N :: sub_spaces true rest)
      else c :: sub_spaces false rest
  end.

Fixpoint lstrip (name : str) : str :=
  match name with
  | [] => []
  | c :: rest => if is_space c then lstrip rest else name
  end.

Definition rstrip (name : str) : str := reverse (lstrip (reverse name)).

(** [name.strip()] *)
Definition strip (name : str) : str := rstrip (lstrip name).

Definition sanitize_filename (name : str) : str :=
  match name with
  | [] => py "untitled"
  | _ =>
      let name := sub_invalid name in
      let name := strip (sub_spaces false name) in
      let name := take 150 name in
      match name with
      | [] => py "untitled_chapter"
      | _ => name
      end
  end.

(** ** The document: outline, reader and console *)

(** A bookmark leaf of pypdf: its title and the object it points to, which
    only the reader can turn into a page number. *)
Record Destination := { dest_title : str; dest_target : N }.

(** An outline item is a [Destination] or a Python list of sub-bookmarks. *)
Inductive OutlineItem :=
| Dest (d : Destination)
| Group (items : list OutlineItem).

(** What [reader.get_destination_page_number(item)] does: returns a page
    number, returns [None], or raises. *)
Inductive page_lookup :=
| PageNum (n : Z)
| PageNone
| PageRaises.

(** The part of [PdfReader] the tool uses. [page_copies n] tells whether
    [writer.add_page(reader.pages[n])] returns (true) or raises (false). *)
Record PdfReader := {
  outline : list OutlineItem;
  num_pages : nat;
  get_destination_page_number : Destination -> page_lookup;
  page_copies : Z -> bool
}.

(** The dictionary built for a bookmark at the target level. *)
Record ChapterStart := { title : str; start_page : Z; level : Z }.

(** The lines the tool prints, with the values they are formatted from. *)
Inductive line :=
| ErrNotFound
| Processing
| ErrParse
| NoOutline
| WarnNoPage (t : str)
| NoBookmarksAtLevel (lvl : Z)
| BookmarksAtLevels (lvls : list Z)
| NoPageLinks
| NoValidStarts
| FoundChapters (n : nat) (lvl : Z)
| SkipEmptyRange (t : str) (first last : Z)
| SkipInvalidRange (t : str) (first last : Z) (total : Z)
| Extracting (t : str) (first last : Z)
| ErrAddPage (page : Z) (t : str)
| SkipNoPages (t : str)
| Saved (name : str)
| ErrSave (name : str)
| Complete.

(** ** find_chapter_bookmarks *)

Section Loops.
Context {X A B : Type} (body : X -> list A * list B).

(** A [for] loop whose body extends a result list and prints. *)
Fixpoint for_each (xs : list X) : list A * list B :=
  match xs with
  | [] => ([], [])
  | x :: rest =>
      let r := body x in
      let rs := for_each rest in
      (r.1 ++ rs.1, r.2 ++ rs.2)
  end.
End Loops.

Section Walker.
Variable reader : PdfReader.
Variable target_level : Z.

(** One iteration of the loop of [find_chapter_bookmarks], on [item]. *)
Fixpoint find_chapter_bookmarks_item (current_level : Z) (item : OutlineItem)
  {struct item} : list ChapterStart * list line :=
  match item with
  | Group items =>
      if current_level <? target_level
      then for_each (find_chapter_bookmarks_item (current_level + 1)) items
      else ([], [])
  | Dest d =>
      if current_level =? target_level
      then match get_destination_page_number reader d with
           | PageNum page_num =>
               ([ {| title := dest_title d; start_page := page_num;
                     level := current_level |} ], [])
           | PageNone => ([], [])
           | PageRaises => ([], [WarnNoPage (dest_title d)])
           end
      else ([], [])
  end.

Definition find_chapter_bookmarks (outline_items : list OutlineItem)
  (current_level : Z) : list ChapterStart * list line :=
  for_each (find_chapter_bookmarks_item current_level) outline_items.
End Walker.

(** ** get_available_bookmark_levels *)

Fixpoint get_available_bookmark_levels_item (current_level : Z)
  (item : OutlineItem) {struct item} : gset Z :=
  match item with
  | Group items =>
      foldr (fun it levels =>
               get_available_bookmark_levels_item (current_level + 1) it ∪ levels)
            ∅ items
  | Dest _ => {[ current_level ]}
  end.

Definition get_available_bookmark_levels (outline_items : list OutlineItem)
  (current_level : Z) : gset Z :=
  foldr (fun it levels =>
           get_available_bookmark_levels_item current_level it ∪ levels)
        ∅ outline_items.

(** Where Destinations sit: [occurs_at items n d] when [d] is a leaf reached
    from [items] through exactly [n] nested lists. *)
Inductive occurs_at : list OutlineItem -> nat -> Destination -> Prop :=
| occurs_here items d :
    Dest d ∈ items -> occurs_at items 0 d
| occurs_below items sub n d :
    Group sub ∈ items -> occurs_at sub n d -> occurs_at items (S n) d.

(** The Destinations met at nesting depth [n], in traversal order. *)
Fixpoint dests_at_item (n : nat) (item : OutlineItem) {struct item}
  : list Destination :=
  match item, n with
  | Dest d, O => [d]
  | Dest _, S _ => []
  | Group _, O => []
  | Group items, S m => flat_map (dests_at_item m) items
  end.

Definition dests_at (n : nat) (items : list OutlineItem) : list Destination :=
  flat_map (dests_at_item n) items.

(** ** Sorting and removing duplicate start pages *)

(** [chapter_starts.sort(key=lambda x: x['start_page'])]. Python's sort is
    stable; it is modelled by a stable insertion sort: a record is put in
    front of the first record whose page is not smaller. *)
Fixpoint insert_by_start_page (ch : ChapterStart) (sorted : list ChapterStart)
  : list ChapterStart :=
  match sorted with
  | [] => [ch]
  | x :: rest =>
      if start_page ch <=? start_page x
      then ch :: sorted
      else x :: insert_by_start_page ch rest
  end.

Definition sort_by_start_page (chapter_starts : list ChapterStart)
  : list ChapterStart :=
  foldr insert_by_start_page [] chapter_starts.

(** The loop filling [unique_chapter_starts], with [seen_pages] as its
    state. *)
Fixpoint unique_from (seen_pages : gset Z) (chapter_starts : list ChapterStart)
  : list ChapterStart :=
  match chapter_starts with
  | [] => []
  | ch_info :: rest =>
      if decide (start_page ch_info ∈ seen_pages)
      then unique_from seen_pages rest
      else ch_info :: unique_from ({[ start_page ch_info ]} ∪ seen_pages) rest
  end.

Definition unique_chapter_starts (chapter_starts : list ChapterStart)
  : list ChapterStart :=
  unique_from ∅ chapter_starts.

(** Lines 106 to 116 together. *)
Definition sort_and_dedup (chapter_starts : list ChapterStart)
  : list ChapterStart :=
  unique_chapter_starts (sort_by_start_page chapter_starts).

(** ** The emission loop *)

(** The digits of a [Decimal.uint] as code points. *)
Fixpoint uint_digits (d : Decimal.uint) : str :=
  match d with
  | Decimal.Nil => []
  | Decimal.D0 r => 48%N :: uint_digits r
  | Decimal.D1 r => 49%N :: uint_digits r
  | Decimal.D2 r => 50%N :: uint_digits r
  | Decimal.D3 r => 51%N :: uint_digits r
  | Decimal.D4 r => 52%N :: uint_digits r
  | Decimal.D5 r => 53%N :: uint_digits r
  | Decimal.D6 r => 54%N :: uint_digits r
  | Decimal.D7 r => 55%N :: uint_digits r
  | Decimal.D8 r => 56%N :: uint_digits r
  | Decimal.D9 r => 57%N :: uint_digits r
  end.

(** The format [{n:03d}] of a natural number: its decimal digits, padded
    with zeros on the left up to three characters. *)
Definition format_03d (n : nat) : str :=
  let digits := uint_digits (Nat.to_uint n) in
  replicate (3 - length digits) 48%N ++ digits.

(** [f"{i+1:03d}_{safe_file_title}.pdf"] with
    [safe_file_title = sanitize_filename(title)]. *)
Definition output_filename (i : nat) (t : str) : str :=
  format_03d (i + 1) ++ py "_" ++ sanitize_filename t ++ py ".pdf".

(** A file written to the output directory: its name and the source pages
    copied into it, in order. *)
Definition file := (str * list Z)%type.

Section Emitter.
Variable reader : PdfReader.
(** [save_ok name] tells whether opening and writing [name] in the output
    directory succeeds. *)
Variable save_ok : str -> bool.
Variable chapter_starts : list ChapterStart.

Definition num_pages_total : Z := Z.of_nat (num_pages reader).

(** Lines 130 to 136. [i + 1 < len(chapter_starts)] holds exactly when the
    lookup at [i + 1] succeeds. *)
Definition end_page_idx (i : nat) : Z :=
  match chapter_starts !! (i + 1)%nat with
  | Some next_chapter => start_page next_chapter - 1
  | None => num_pages_total - 1
  end.

(** The result of the two sanity checks of lines 139 to 148. *)
Inductive range_check := RangeOk | RangeEmpty | RangeInvalid.

Definition check_range (start_page_idx end_idx : Z) : range_check :=
  if start_page_idx >? end_idx then RangeEmpty
  else if negb ((0 <=? start_page_idx) && (start_page_idx <? num_pages_total)
                && (0 <=? end_idx) && (end_idx <? num_pages_total))
  then RangeInvalid
  else RangeOk.

(** Lines 153 to 159: the pages of [writer] after the loop over
    [range(start_page_idx, end_page_idx + 1)], and the errors printed. *)
Definition copy_pages (t : str) (start_page_idx end_idx : Z)
  : list Z * list line :=
  for_each (fun page_num =>
              if page_copies reader page_num
              then ([page_num], [])
              else ([], [ErrAddPage (page_num + 1) t]))
           (seqZ start_page_idx (end_idx + 1 - start_page_idx)).

(** The body of the loop of line 125 at index [i]: the files it writes and
    the lines it prints. *)
Definition extract_chapter (i : nat) : list file * list line :=
  match chapter_starts !! i with
  | None => ([], [])
  | Some current_chapter_info =>
      let t := title current_chapter_info in
      let start_page_idx := start_page current_chapter_info in
      let end_idx := end_page_idx i in
      match check_range start_page_idx end_idx with
      | RangeEmpty =>
          ([], [SkipEmptyRange t (start_page_idx + 1) (end_idx + 1)])
      | RangeInvalid =>
          ([], [SkipInvalidRange t (start_page_idx + 1) (end_idx + 1)
                  num_pages_total])
      | RangeOk =>
          let w := copy_pages t start_page_idx end_idx in
          match w.1 with
          | [] =>
              ([], Extracting t (start_page_idx + 1) (end_idx + 1)
                     :: w.2 ++ [SkipNoPages t])
          | _ =>
              let name := output_filename i t in
              if save_ok name
              then ([(name, w.1)],
                    Extracting t (start_page_idx + 1) (end_idx + 1)
                      :: w.2 ++ [Saved name])
              else ([], Extracting t (start_page_idx + 1) (end_idx + 1)
                          :: w.2 ++ [ErrSave name])
          end
      end
  end.

(** [for i in range(len(chapter_starts))]. *)
Definition extract_loop : list file * list line :=
  for_each extract_chapter (seq 0 (length chapter_starts)).
End Emitter.

(** ** extract_chapters_from_pdf *)

(** What is found at [pdf_path]. *)
Inductive pdf_source :=
| PathMissing
| ParseFails
| Parsed (reader : PdfReader).

Definition extract_chapters_from_pdf (src : pdf_source) (save_ok : str -> bool)
  (chapter_level : Z) : list file * list line :=
  match src with
  | PathMissing => ([], [ErrNotFound])
  | ParseFails => ([], [Processing; ErrParse])
  | Parsed reader =>
      match outline reader with
      | [] => ([], [Processing; NoOutline])
      | _ =>
          let found := find_chapter_bookmarks reader chapter_level
                         (outline reader) 0 in
          match found.1 with
          | [] =>
              let available_levels :=
                get_available_bookmark_levels (outline reader) 0 in
              ([], Processing :: found.2 ++
                   NoBookmarksAtLevel chapter_level ::
                   (if decide (available_levels = ∅) then [NoPageLinks]
                    else [BookmarksAtLevels
                            (merge_sort Z.le (elements available_levels))]))
          | _ =>
              match sort_and_dedup found.1 with
              | [] => ([], Processing :: found.2 ++ [NoValidStarts])
              | chapter_starts =>
                  let out := extract_loop reader save_ok chapter_starts in
                  (out.1,
                   Processing :: found.2 ++
                   FoundChapters (length chapter_starts) chapter_level ::
                   out.2 ++ [Complete])
              end
          end
      end
  end.

(** ** Reference notions used to state the properties *)

(** The record a Destination contributes at level [lvl] when the reader
    resolves it to a page, and nothing otherwise. *)
Definition chapter_of (reader : PdfReader) (lvl : Z) (d : Destination)
  : option ChapterStart :=
  match get_destination_page_number reader d with
  | PageNum page_num =>
      Some {| title := dest_title d; start_page := page_num; level := lvl |}
  | PageNone | PageRaises => None
  end.

(** The orders on records that the resolver relies on. *)
Definition page_le (a b : ChapterStart) : Prop := start_page a <= start_page b.
Definition page_lt (a b : ChapterStart) : Prop := start_page a < start_page b.

(** The records of a list that start at page [p], in the order of the
    list. *)
Definition starting_at (p : Z) (chapter_starts : list ChapterStart)
  : list ChapterStart :=
  filter (fun ch => start_page ch = p) chapter_starts.

(** The pages of the inclusive range [first..last] that can be copied, in
    order. *)
Definition copyable_pages (reader : PdfReader) (first last : Z) : list Z :=
  filter (fun p => page_copies reader p = true) (seqZ first (last + 1 - first)).

(** The lines that the emission loop can print. *)
Definition loop_line (l : line) : Prop :=
  match l with
  | SkipEmptyRange _ _ _ | SkipInvalidRange _ _ _ _ | Extracting _ _ _
  | ErrAddPage _ _ | SkipNoPages _ | Saved _ | ErrSave _ => True
  | _ => False
  end.

(** ** Sample documents *)

Definition bookmark (t : string) (target : N) : OutlineItem :=
  Dest {| dest_title := py t; dest_target := target |}.

(** Five pages; bookmarks A (page 0) and B (page 2) at the top level, and
    A1 (page 0) and A2 (page 1) one list further down. Every bookmark
    resolves to the page its target names. *)
Definition sample_reader (copies : Z -> bool) : PdfReader :=
  {| outline := [bookmark "A" 0; Group [bookmark "A1" 0; bookmark "A2" 1];
                 bookmark "B" 2];
     num_pages := 5;
     get_destination_page_number := fun d => PageNum (Z.of_N (dest_target d));
     page_copies := copies |}.

Definition sample_chapter (t : string) (p lvl : Z) : ChapterStart :=
  {| title := py t; start_page := p; level := lvl |}.

(** The numbering in which only written files count: the file written in
    position [k] (from 0) carries the number [k + 1]. *)
Definition numbered_by_emission (files : list file) : Prop :=
  forall k name pages,
    files !! k = Some (name, pages) -> exists t, name = output_filename k t.

(** ** Shapes of sanitized names *)

(** White space only occurs as single spaces: every white space character
    of [name] is a space (code point 32) and follows a character that is not
    white space. [prev_space] tells whether the character in front of [name]
    counts as white space, so [spaced true name] also forbids a leading
    space. *)
Fixpoint spaced (prev_space : bool) (name : str) : Prop :=
  match name with
  | [] => True
  | c :: rest =>
      if is_space c
      then c = 32%N /\ prev_space = false /\ spaced true rest
      else spaced false rest
  end.

(** The warning a Destination causes when the reader raises on it. *)
Definition warning_of (reader : PdfReader) (d : Destination) : option line :=
  match get_destination_page_number reader d with
  | PageRaises => Some (WarnNoPage (dest_title d))
  | PageNum _ | PageNone => None
  end.

(** ** Reading a file name back *)

(** The decimal number a name starts with: its leading digits. *)
Fixpoint read_digits (name : str) : Decimal.uint :=
  match name with
  | [] => Decimal.Nil
  | c :: rest =>
      match c with
      | 48%N => Decimal.D0 (read_digits rest)
      | 49%N => Decimal.D1 (read_digits rest)
      | 50%N => Decimal.D2 (read_digits rest)
      | 51%N => Decimal.D3 (read_digits rest)
      | 52%N => Decimal.D4 (read_digits rest)
      | 53%N => Decimal.D5 (read_digits rest)
      | 54%N => Decimal.D6 (read_digits rest)
      | 55%N => Decimal.D7 (read_digits rest)
      | 56%N => Decimal.D8 (read_digits rest)
      | 57%N => Decimal.D9 (read_digits rest)
      | _ => Decimal.Nil
      end
  end.

Definition filename_index (name : str) : nat := Nat.of_uint (read_digits name).

(** * Properties *)

(** ** Loops *)

Section LoopFacts.
Context {X A B : Type} (body : X -> list A * list B).

Lemma for_each_results (xs : list X) :
  (for_each body xs).1 = xs ≫= (fun x => (body x).1).
Proof. induction xs as [|x xs IH]; simpl; [done | by rewrite IH]. Qed.

Lemma for_each_printed (xs : list X) :
  (for_each body xs).2 = xs ≫= (fun x => (body x).2).
Proof. induction xs as [|x xs IH]; simpl; [done | by rewrite IH]. Qed.

Lemma for_each_silent (xs : list X) :
  Forall (fun x => body x = ([], [])) xs -> for_each body xs = ([], []).
Proof.
  induction 1 as [|x xs Hx _ IH]; simpl; [done |].
  by rewrite Hx, IH.
Qed.
End LoopFacts.

(** ** The outline tree *)

Lemma OutlineItem_nested_ind (P : OutlineItem -> Prop) :
  (forall d, P (Dest d)) ->
  (forall items, Forall P items -> P (Group items)) ->
  forall item, P item.
Proof.
  intros Hdest Hgroup. fix IH 1. intros [d | items].
  - apply Hdest.
  - apply Hgroup. induction items as [|it items IHitems]; constructor.
    + apply IH.
    + apply IHitems.
Qed.

Lemma outline_list_ind (P : list OutlineItem -> Prop) :
  P [] ->
  (forall d rest, P rest -> P (Dest d :: rest)) ->
  (forall sub rest, P sub -> P rest -> P (Group sub :: rest)) ->
  forall items, P items.
Proof.
  intros Hnil Hdest Hgroup items.
  assert (Hall : Forall (fun it => match it with
                                   | Dest _ => True
                                   | Group sub => P sub
                                   end) items /\ P items); [| tauto].
  induction items as [|it items [IHa IHp]]; [by split |].
  assert (Hit : match it with Dest _ => True | Group sub => P sub end).
  { clear IHa IHp. revert it. apply OutlineItem_nested_ind; [done |].
    intros sub Hsub. induction sub as [|x sub IHsub]; [done |].
    apply Forall_cons in Hsub as [Hx Hsub]. specialize (IHsub Hsub).
    destruct x; [by apply Hdest | by apply Hgroup]. }
  split; [by constructor |].
  destruct it; [by apply Hdest | by apply Hgroup].
Qed.

Lemma occurs_at_nil n d : ~ occurs_at [] n d.
Proof. inversion 1; subst; by eapply not_elem_of_nil. Qed.

Lemma occurs_at_further x rest n d :
  occurs_at rest n d -> occurs_at (x :: rest) n d.
Proof.
  inversion 1; subst.
  - constructor. by apply list_elem_of_further.
  - econstructor; [by apply list_elem_of_further | done].
Qed.

Lemma occurs_at_cons_dest d0 rest n d :
  occurs_at (Dest d0 :: rest) n d <-> (n = O /\ d = d0) \/ occurs_at rest n d.
Proof.
  split.
  - inversion 1 as [? ? Hin | ? sub m ? Hin Hsub]; subst.
    + apply elem_of_cons in Hin as [[= ->] | Hin]; [by left | right].
      by constructor.
    + apply elem_of_cons in Hin as [[=] | Hin]. right. by econstructor.
  - intros [[-> ->] | Hrest].
    + constructor. by left.
    + by apply occurs_at_further.
Qed.

Lemma occurs_at_cons_group sub rest n d :
  occurs_at (Group sub :: rest) n d <->
  (exists m, n = S m /\ occurs_at sub m d) \/ occurs_at rest n d.
Proof.
  split.
  - inversion 1 as [? ? Hin | ? sub' m ? Hin Hsub]; subst.
    + apply elem_of_cons in Hin as [[=] | Hin]. right. by constructor.
    + apply elem_of_cons in Hin as [[= ->] | Hin]; [left; eauto | right].
      by econstructor.
  - intros [(m & -> & Hsub) | Hrest].
    + econstructor; [by left | done].
    + by apply occurs_at_further.
Qed.

Lemma dests_at_nil n : dests_at n [] = [].
Proof. done. Qed.

Lemma dests_at_cons_dest n d rest :
  dests_at n (Dest d :: rest) =
  match n with O => d :: dests_at n rest | S _ => dests_at n rest end.
Proof. by destruct n. Qed.

Lemma dests_at_cons_group n sub rest :
  dests_at n (Group sub :: rest) =
  match n with
  | O => dests_at n rest
  | S m => dests_at m sub ++ dests_at n rest
  end.
Proof. by destruct n. Qed.

(** [dests_at] lists exactly the Destinations that occur at the depth. *)
Lemma elem_of_dests_at items :
  forall n d, d ∈ dests_at n items <-> occurs_at items n d.
Proof.
  induction items as [|d0 rest IH|sub rest IHsub IH] using outline_list_ind;
    intros n d.
  - rewrite dests_at_nil. split; [by intros ?%not_elem_of_nil |].
    by intros ?%occurs_at_nil.
  - rewrite dests_at_cons_dest, occurs_at_cons_dest, <- IH.
    destruct n as [|m].
    + rewrite elem_of_cons. split.
      * intros [-> | ?]; [by left | by right].
      * intros [[_ ->] | ?]; [by left | by right].
    + split; [by right | by intros [[[=] _] | ?]].
  - rewrite dests_at_cons_group, occurs_at_cons_group, <- IH.
    destruct n as [|m].
    + split; [by right | by intros [(m & [=] & _) | ?]].
    + rewrite elem_of_app, IHsub. split.
      * intros [? | ?]; [left; eauto | by right].
      * intros [(m' & [= <-] & ?) | ?]; [by left | by right].
Qed.

(** ** The walker *)

Section WalkerFacts.
Variable reader : PdfReader.
Variable target_level : Z.

Lemma find_chapter_bookmarks_nil cur :
  find_chapter_bookmarks reader target_level [] cur = ([], []).
Proof. done. Qed.

Lemma find_chapter_bookmarks_cons item rest cur :
  find_chapter_bookmarks reader target_level (item :: rest) cur =
  let r := find_chapter_bookmarks_item reader target_level cur item in
  let rs := find_chapter_bookmarks reader target_level rest cur in
  (r.1 ++ rs.1, r.2 ++ rs.2).
Proof. done. Qed.

(** The recursive call of line 33. *)
Lemma find_chapter_bookmarks_item_group sub cur :
  find_chapter_bookmarks_item reader target_level cur (Group sub) =
  if cur <? target_level
  then find_chapter_bookmarks reader target_level sub (cur + 1)
  else ([], []).
Proof. done. Qed.

Lemma find_chapter_bookmarks_item_dest d cur :
  (find_chapter_bookmarks_item reader target_level cur (Dest d)).1 =
  if cur =? target_level
  then option_list (chapter_of reader cur d)
  else [].
Proof.
  simpl. unfold chapter_of.
  destruct (cur =? target_level); [| done].
  by destruct (get_destination_page_number reader d).
Qed.

(** Below the target level nothing is looked at. *)
Lemma find_chapter_bookmarks_past_target items cur :
  target_level < cur ->
  find_chapter_bookmarks reader target_level items cur = ([], []).
Proof.
  intros Hcur. apply for_each_silent, Forall_forall. intros [d | sub] _.
  - simpl. by rewrite (proj2 (Z.eqb_neq _ _)) by lia.
  - simpl. by rewrite (proj2 (Z.ltb_ge _ _)) by lia.
Qed.

(** At or above the target level, the records are those of the resolvable
    Destinations met exactly [target_level - cur] lists further down, in
    traversal order. *)
Lemma find_chapter_bookmarks_found items :
  forall cur, cur <= target_level ->
    (find_chapter_bookmarks reader target_level items cur).1 =
    omap (chapter_of reader target_level)
         (dests_at (Z.to_nat (target_level - cur)) items).
Proof.
  induction items as [|d rest IH|sub rest IHsub IH] using outline_list_ind;
    intros cur Hcur.
  - done.
  - rewrite find_chapter_bookmarks_cons. cbv zeta. cbn [fst].
    rewrite find_chapter_bookmarks_item_dest, IH, dests_at_cons_dest by done.
    destruct (Z.eqb_spec cur target_level) as [-> | Hne].
    + rewrite Z.sub_diag. simpl.
      by destruct (chapter_of reader target_level d).
    + destruct (Z.to_nat (target_level - cur)) eqn:Hn; [lia | done].
  - rewrite find_chapter_bookmarks_cons. cbv zeta. cbn [fst].
    rewrite find_chapter_bookmarks_item_group, IH, dests_at_cons_group by done.
    destruct (Z.ltb_spec cur target_level) as [Hlt | Hge].
    + rewrite IHsub by lia.
      replace (Z.to_nat (target_level - cur))
        with (S (Z.to_nat (target_level - (cur + 1)))) by lia.
      by rewrite omap_app.
    + by replace (Z.to_nat (target_level - cur)) with O by lia.
Qed.

(** The walker only prints warnings about bookmarks. *)
Lemma find_chapter_bookmarks_prints items :
  forall cur l, l ∈ (find_chapter_bookmarks reader target_level items cur).2 ->
    exists t, l = WarnNoPage t.
Proof.
  induction items as [|d rest IH|sub rest IHsub IH] using outline_list_ind;
    intros cur l.
  - by intros ?%not_elem_of_nil.
  - rewrite find_chapter_bookmarks_cons. cbv zeta. cbn [snd].
    rewrite elem_of_app. intros [Hl | Hl]; [| by eapply IH].
    simpl in Hl. destruct (cur =? target_level);
      [| by apply not_elem_of_nil in Hl].
    destruct (get_destination_page_number reader d);
      try by apply not_elem_of_nil in Hl.
    apply list_elem_of_singleton in Hl. eauto.
  - rewrite find_chapter_bookmarks_cons. cbv zeta. cbn [snd].
    rewrite elem_of_app, find_chapter_bookmarks_item_group.
    intros [Hl | Hl]; [| by eapply IH].
    destruct (cur <? target_level); [by eapply IHsub |].
    by apply not_elem_of_nil in Hl.
Qed.
End WalkerFacts.

(** ** The level prober *)

Lemma get_available_bookmark_levels_cons_dest d rest cur :
  get_available_bookmark_levels (Dest d :: rest) cur =
  {[ cur ]} ∪ get_available_bookmark_levels rest cur.
Proof. done. Qed.

Lemma get_available_bookmark_levels_cons_group sub rest cur :
  get_available_bookmark_levels (Group sub :: rest) cur =
  get_available_bookmark_levels sub (cur + 1)
    ∪ get_available_bookmark_levels rest cur.
Proof. done. Qed.

Lemma get_available_bookmark_levels_from items :
  forall cur lvl,
    lvl ∈ get_available_bookmark_levels items cur <->
    exists n d, lvl = cur + Z.of_nat n /\ occurs_at items n d.
Proof.
  induction items as [|d0 rest IH|sub rest IHsub IH] using outline_list_ind;
    intros cur lvl.
  - split; [by intros ?%not_elem_of_empty |].
    by intros (n & d & _ & ?%occurs_at_nil).
  - rewrite get_available_bookmark_levels_cons_dest, elem_of_union,
      elem_of_singleton, IH.
    split.
    + intros [-> | (n & d & -> & Hocc)].
      * exists O, d0. split; [lia |]. apply occurs_at_cons_dest. by left.
      * exists n, d. split; [done |]. by apply occurs_at_further.
    + intros (n & d & -> & Hocc).
      apply occurs_at_cons_dest in Hocc as [[-> _] | Hocc];
        [left; lia | right; eauto].
  - rewrite get_available_bookmark_levels_cons_group, elem_of_union, IHsub, IH.
    split.
    + intros [(n & d & -> & Hocc) | (n & d & -> & Hocc)].
      * exists (S n), d. split; [lia |].
        apply occurs_at_cons_group. left. eauto.
      * exists n, d. split; [done |]. by apply occurs_at_further.
    + intros (n & d & -> & Hocc).
      apply occurs_at_cons_group in Hocc as [(m & -> & Hocc) | Hocc].
      * left. exists m, d. split; [lia | done].
      * right. eauto.
Qed.

(** ** Sorting and deduplication *)

Lemma starting_at_cons p ch l :
  starting_at p (ch :: l) =
  if decide (start_page ch = p) then ch :: starting_at p l else starting_at p l.
Proof. unfold starting_at. rewrite filter_cons. by case_decide. Qed.

Lemma insert_by_start_page_perm ch l : insert_by_start_page ch l ≡ₚ ch :: l.
Proof.
  induction l as [|x l IH]; simpl; [done |].
  destruct (start_page ch <=? start_page x); [done |].
  rewrite IH. apply Permutation_swap.
Qed.

Lemma sort_by_start_page_perm l : sort_by_start_page l ≡ₚ l.
Proof.
  induction l as [|ch l IH]; simpl; [done |].
  by rewrite insert_by_start_page_perm, IH.
Qed.

Lemma insert_by_start_page_sorted ch l :
  StronglySorted page_le l -> StronglySorted page_le (insert_by_start_page ch l).
Proof.
  induction 1 as [|x l Hl IH Hx]; simpl.
  - repeat constructor.
  - destruct (Z.leb_spec (start_page ch) (start_page x)) as [Hle | Hgt].
    + constructor; [by constructor |]. constructor; [done |].
      eapply Forall_impl; [exact Hx |]. unfold page_le. intros; lia.
    + constructor; [done |]. rewrite insert_by_start_page_perm.
      constructor; [unfold page_le; lia | done].
Qed.

Lemma sort_by_start_page_sorted l : StronglySorted page_le (sort_by_start_page l).
Proof.
  induction l as [|ch l IH]; simpl; [constructor |].
  by apply insert_by_start_page_sorted.
Qed.

(** Insertion never moves a record across one with the same page. *)
Lemma insert_by_start_page_stable p ch l :
  starting_at p (insert_by_start_page ch l) = starting_at p (ch :: l).
Proof.
  induction l as [|x l IH]; simpl; [done |].
  destruct (Z.leb_spec (start_page ch) (start_page x)) as [Hle | Hgt]; [done |].
  rewrite (starting_at_cons p x), IH, !(starting_at_cons p ch),
    (starting_at_cons p x).
  repeat case_decide; (done || lia).
Qed.

Lemma sort_by_start_page_stable p l :
  starting_at p (sort_by_start_page l) = starting_at p l.
Proof.
  induction l as [|ch l IH]; simpl; [done |].
  by rewrite insert_by_start_page_stable, !starting_at_cons, IH.
Qed.

Lemma sort_by_start_page_nil l : sort_by_start_page l = [] -> l = [].
Proof.
  intros Hnil. apply Permutation_nil_r. by rewrite <- Hnil, sort_by_start_page_perm.
Qed.

Lemma unique_from_first p l :
  forall seen,
    starting_at p (unique_from seen l) =
    if decide (p ∈ seen) then [] else take 1 (starting_at p l).
Proof.
  induction l as [|ch l IH]; intros seen; simpl.
  - by case_decide.
  - destruct (decide (start_page ch ∈ seen)) as [Hin | Hnot].
    + rewrite IH, (starting_at_cons p ch).
      repeat case_decide; (done || by subst).
    + rewrite !(starting_at_cons p ch), IH.
      repeat case_decide; try done; set_solver.
Qed.

Lemma unique_from_elem ch l :
  forall seen, ch ∈ unique_from seen l -> ch ∈ l /\ start_page ch ∉ seen.
Proof.
  induction l as [|x l IH]; intros seen; simpl.
  - by intros ?%not_elem_of_nil.
  - destruct (decide (start_page x ∈ seen)) as [Hin | Hnot].
    + intros [? ?]%IH. split; [by right | done].
    + intros [-> | [? ?]%IH]%elem_of_cons; [by split; [left |] |].
      split; [by right | set_solver].
Qed.

Lemma unique_from_sublist l : forall seen, unique_from seen l `sublist_of` l.
Proof.
  induction l as [|x l IH]; intros seen; simpl; [done |].
  destruct (decide (start_page x ∈ seen)).
  - by apply sublist_cons.
  - by apply sublist_skip.
Qed.

Lemma unique_from_increasing l :
  StronglySorted page_le l ->
  forall seen, StronglySorted page_lt (unique_from seen l).
Proof.
  induction 1 as [|x l Hl IH Hx]; intros seen; simpl; [constructor |].
  destruct (decide (start_page x ∈ seen)); [done |].
  constructor; [done |]. apply Forall_forall. intros ch Hch.
  apply unique_from_elem in Hch as [Hch Hnew].
  rewrite Forall_forall in Hx. specialize (Hx ch Hch).
  unfold page_le in Hx. unfold page_lt.
  assert (start_page ch <> start_page x) by set_solver. lia.
Qed.

Lemma unique_chapter_starts_cons ch l :
  unique_chapter_starts (ch :: l) = ch :: unique_from {[ start_page ch ]} l.
Proof.
  unfold unique_chapter_starts. simpl.
  destruct (decide (start_page ch ∈ (∅ : gset Z))) as [Hin | _]; [set_solver |].
  by rewrite (right_id_L ∅ (∪)).
Qed.

(** ** The emission loop *)

Section EmitterFacts.
Variable reader : PdfReader.
Variable save_ok : str -> bool.
Variable chapter_starts : list ChapterStart.

(** The guard of line 130 and the lookup of line 132 agree. *)
Lemma next_chapter_guard i :
  (i + 1 < length chapter_starts)%nat <-> is_Some (chapter_starts !! (i + 1)%nat).
Proof. symmetry. apply lookup_lt_is_Some. Qed.

Lemma end_page_idx_next i next_chapter :
  chapter_starts !! (i + 1)%nat = Some next_chapter ->
  end_page_idx reader chapter_starts i = start_page next_chapter - 1.
Proof. unfold end_page_idx. by intros ->. Qed.

Lemma end_page_idx_last i :
  ~ (i + 1 < length chapter_starts)%nat ->
  end_page_idx reader chapter_starts i = num_pages_total reader - 1.
Proof.
  intros Hlast. unfold end_page_idx.
  destruct (chapter_starts !! (i + 1)%nat) eqn:Hnext; [| done].
  destruct Hlast. apply next_chapter_guard. eauto.
Qed.

Lemma check_range_ok first last :
  check_range reader first last = RangeOk <->
  first <= last /\ 0 <= first < num_pages_total reader
  /\ 0 <= last < num_pages_total reader.
Proof.
  unfold check_range.
  destruct (Z.gtb_spec first last); [split; [done | lia] |].
  destruct (Z.leb_spec 0 first), (Z.ltb_spec first (num_pages_total reader)),
    (Z.leb_spec 0 last), (Z.ltb_spec last (num_pages_total reader));
    simpl; split; (done || lia).
Qed.

Lemma check_range_empty first last :
  check_range reader first last = RangeEmpty <-> first > last.
Proof.
  unfold check_range.
  destruct (Z.gtb_spec first last); [split; [lia | done] |].
  destruct (negb _); split; (done || lia).
Qed.

Lemma check_range_invalid first last :
  check_range reader first last = RangeInvalid <->
  first <= last /\ ~ (0 <= first < num_pages_total reader
                      /\ 0 <= last < num_pages_total reader).
Proof.
  pose proof (check_range_ok first last) as Hok.
  pose proof (check_range_empty first last) as Hempty.
  destruct (check_range reader first last).
  - split; [done |]. intros [? Hbad]. destruct Hbad. by apply Hok.
  - split; [done |]. intros [? _]. assert (first > last) by by apply Hempty. lia.
  - split; [| done]. intros _.
    assert (Hle : first <= last).
    { destruct (Z.le_gt_cases first last); [done |].
      assert (RangeInvalid = RangeEmpty) by (apply Hempty; lia). done. }
    split; [done |].
    intros Hin. assert (RangeInvalid = RangeOk) by (apply Hok; lia). done.
Qed.

Lemma copy_pages_copied t first last :
  (copy_pages reader t first last).1 = copyable_pages reader first last.
Proof.
  unfold copy_pages, copyable_pages.
  induction (seqZ first (last + 1 - first)) as [|p ps IH]; [done |].
  cbn [for_each]. cbv zeta. cbn [fst]. rewrite filter_cons, IH.
  destruct (page_copies reader p) eqn:Hp.
  - by rewrite decide_True.
  - by rewrite decide_False.
Qed.

Lemma copy_pages_printed t first last :
  (copy_pages reader t first last).2 =
  (fun p => ErrAddPage (p + 1) t) <$>
    filter (fun p => page_copies reader p = false)
           (seqZ first (last + 1 - first)).
Proof.
  unfold copy_pages.
  induction (seqZ first (last + 1 - first)) as [|p ps IH]; [done |].
  cbn [for_each]. cbv zeta. cbn [snd]. rewrite filter_cons, IH.
  destruct (page_copies reader p) eqn:Hp.
  - by rewrite decide_False.
  - by rewrite decide_True.
Qed.

(** What an iteration does once the range passed both checks. *)
Lemma extract_chapter_valid i ch :
  chapter_starts !! i = Some ch ->
  check_range reader (start_page ch) (end_page_idx reader chapter_starts i)
    = RangeOk ->
  let last := end_page_idx reader chapter_starts i in
  let pages := copyable_pages reader (start_page ch) last in
  let printed := (copy_pages reader (title ch) (start_page ch) last).2 in
  let name := output_filename i (title ch) in
  let heading := Extracting (title ch) (start_page ch + 1) (last + 1) in
  extract_chapter reader save_ok chapter_starts i =
  if decide (pages = []) then ([], heading :: printed ++ [SkipNoPages (title ch)])
  else if save_ok name then ([(name, pages)], heading :: printed ++ [Saved name])
  else ([], heading :: printed ++ [ErrSave name]).
Proof.
  intros Hch Hok. cbv zeta. unfold extract_chapter. rewrite Hch. cbv zeta.
  rewrite Hok, copy_pages_copied.
  destruct (copyable_pages reader (start_page ch)
              (end_page_idx reader chapter_starts i)) as [|p ps]; [done |].
  rewrite decide_False by done. done.
Qed.

Lemma extract_chapter_prints i l :
  l ∈ (extract_chapter reader save_ok chapter_starts i).2 -> loop_line l.
Proof.
  unfold extract_chapter.
  destruct (chapter_starts !! i) as [ch|]; [| by intros ?%not_elem_of_nil].
  cbv zeta.
  assert (Hcopy : forall t first last,
             l ∈ (copy_pages reader t first last).2 -> loop_line l).
  { intros t first last. rewrite copy_pages_printed.
    by intros (p & -> & _)%list_elem_of_fmap. }
  destruct (check_range _ _ _).
  - destruct ((copy_pages _ _ _ _).1); [| destruct (save_ok _)]; cbn [snd];
      rewrite elem_of_cons, elem_of_app, list_elem_of_singleton;
      intros [-> | [Hl | ->]]; by eauto.
  - by intros ->%list_elem_of_singleton.
  - by intros ->%list_elem_of_singleton.
Qed.

Lemma extract_loop_prints l :
  l ∈ (extract_loop reader save_ok chapter_starts).2 -> loop_line l.
Proof.
  unfold extract_loop. rewrite for_each_printed.
  intros (i & Hl & _)%list_elem_of_bind. by eapply extract_chapter_prints.
Qed.

(** Every index is visited, whatever the earlier iterations did. *)
Lemma extract_loop_files f :
  f ∈ (extract_loop reader save_ok chapter_starts).1 <->
  exists i, (i < length chapter_starts)%nat
            /\ f ∈ (extract_chapter reader save_ok chapter_starts i).1.
Proof.
  unfold extract_loop. rewrite for_each_results, list_elem_of_bind.
  split; intros (i & H1 & H2); exists i.
  - apply elem_of_seq in H2. split; [lia | done].
  - split; [done |]. apply elem_of_seq. lia.
Qed.

Lemma extract_loop_lines l :
  l ∈ (extract_loop reader save_ok chapter_starts).2 <->
  exists i, (i < length chapter_starts)%nat
            /\ l ∈ (extract_chapter reader save_ok chapter_starts i).2.
Proof.
  unfold extract_loop. rewrite for_each_printed, list_elem_of_bind.
  split; intros (i & H1 & H2); exists i.
  - apply elem_of_seq in H2. split; [lia | done].
  - split; [done |]. apply elem_of_seq. lia.
Qed.
End EmitterFacts.

(** ** The walker and the prober: main results *)

(** C5. The records returned for a target level are exactly those of the
    resolvable Destinations that sit exactly [target_level] lists deep: a
    list is never turned into a record, a Destination at any other depth
    gives nothing, and every record carries the requested level. *)
Theorem find_chapter_bookmarks_exact_level reader target_level items :
  let found := (find_chapter_bookmarks reader target_level items 0).1 in
  (forall ch,
      ch ∈ found <->
      0 <= target_level /\
      exists d, occurs_at items (Z.to_nat target_level) d
                /\ chapter_of reader target_level d = Some ch)
  /\ Forall (fun ch => level ch = target_level) found.
Proof.
  cbv zeta.
  assert (Hiff : forall ch,
    ch ∈ (find_chapter_bookmarks reader target_level items 0).1 <->
    0 <= target_level /\
    exists d, occurs_at items (Z.to_nat target_level) d
              /\ chapter_of reader target_level d = Some ch).
  { intros ch. destruct (Z.le_gt_cases 0 target_level) as [Hle | Hneg].
    - rewrite find_chapter_bookmarks_found, Z.sub_0_r, list_elem_of_omap by done.
      split.
      + intros (d & Hd & Hch). split; [done |]. exists d.
        by rewrite <- elem_of_dests_at.
      + intros (_ & d & Hd & Hch). exists d. by rewrite elem_of_dests_at.
    - rewrite find_chapter_bookmarks_past_target by lia. split.
      + by intros ?%not_elem_of_nil.
      + intros [? _]. lia. }
  split; [exact Hiff |].
  apply Forall_forall. intros ch (_ & d & _ & Hch)%Hiff.
  unfold chapter_of in Hch.
  destruct (get_destination_page_number reader d); by simplify_eq.
Qed.

(** C7. A level is reported exactly when some Destination occurs that many
    lists deep. *)
Theorem get_available_bookmark_levels_exact items lvl :
  lvl ∈ get_available_bookmark_levels items 0 <->
  exists n d, lvl = Z.of_nat n /\ occurs_at items n d.
Proof. by rewrite get_available_bookmark_levels_from. Qed.

(** C10. For a negative target level the walker returns nothing and prints
    nothing, whatever the reader would answer: no list is entered and no
    Destination is looked up. A run on a document with an outline then
    reports that no bookmarks were found at the level and writes no file. *)
Theorem negative_level_finds_nothing reader save_ok target_level :
  target_level < 0 ->
  (forall r items, find_chapter_bookmarks r target_level items 0 = ([], []))
  /\ (outline reader <> [] ->
      exists report,
        extract_chapters_from_pdf (Parsed reader) save_ok target_level =
        ([], [Processing; NoBookmarksAtLevel target_level; report])
        /\ (report = NoPageLinks \/ exists lvls, report = BookmarksAtLevels lvls)).
Proof.
  intros Hneg.
  assert (Hnone : forall r items,
             find_chapter_bookmarks r target_level items 0 = ([], [])).
  { intros r items. apply find_chapter_bookmarks_past_target. lia. }
  split; [exact Hnone |].
  intros Houtline. unfold extract_chapters_from_pdf.
  destruct (outline reader) as [|item rest] eqn:Hout; [done |].
  rewrite Hnone. cbn [fst snd app].
  destruct (decide (get_available_bookmark_levels (item :: rest) 0 = ∅));
    eexists; (split; [reflexivity |]); [by left | right; eauto].
Qed.

Lemma negative_level_finds_nothing_witness :
  -1 < 0 /\
  find_chapter_bookmarks (sample_reader (fun _ => true)) (-1)
    (outline (sample_reader (fun _ => true))) 0 = ([], []).
Proof.
  split; [lia |].
  apply (negative_level_finds_nothing (sample_reader (fun _ => true))
           (fun _ => true) (-1)); lia.
Defined.

(** ** The resolver: main results *)

(** C4. The sort-and-deduplicate stage of lines 106 to 116: sorting
    permutes the records into ascending page order without changing the
    relative order of records with the same page; the stage returns a
    sublist of the sorted records that keeps, for every page, the first of
    its records (which is the first one of the input with that page) and
    only that one; and the pages of its result increase strictly. *)
Theorem sort_and_dedup_correct raw :
  let sorted := sort_by_start_page raw in
  sorted ≡ₚ raw
  /\ StronglySorted page_le sorted
  /\ (forall p, starting_at p sorted = starting_at p raw)
  /\ sort_and_dedup raw `sublist_of` sorted
  /\ (forall p, starting_at p (sort_and_dedup raw) = take 1 (starting_at p sorted))
  /\ (forall p, starting_at p (sort_and_dedup raw) = take 1 (starting_at p raw))
  /\ StronglySorted page_lt (sort_and_dedup raw).
Proof.
  cbv zeta. unfold sort_and_dedup.
  assert (Hfirst : forall p,
             starting_at p (unique_chapter_starts (sort_by_start_page raw))
             = take 1 (starting_at p (sort_by_start_page raw))).
  { intros p. unfold unique_chapter_starts. rewrite unique_from_first.
    by rewrite decide_False by set_solver. }
  repeat split.
  - apply sort_by_start_page_perm.
  - apply sort_by_start_page_sorted.
  - intros p. apply sort_by_start_page_stable.
  - apply unique_from_sublist.
  - exact Hfirst.
  - intros p. by rewrite Hfirst, sort_by_start_page_stable.
  - apply unique_from_increasing, sort_by_start_page_sorted.
Qed.

(** C9. Sorting and deduplicating a non-empty list of records gives a
    non-empty list that starts with the first sorted record, so no run
    prints that no valid starting points were found after filtering. *)
Theorem sort_and_dedup_nonempty raw :
  raw <> [] ->
  (exists first rest rest',
      sort_by_start_page raw = first :: rest
      /\ sort_and_dedup raw = first :: rest')
  /\ (forall src save_ok chapter_level,
         NoValidStarts ∉ (extract_chapters_from_pdf src save_ok chapter_level).2).
Proof.
  intros Hraw. split.
  - unfold sort_and_dedup.
    destruct (sort_by_start_page raw) as [|first rest] eqn:Hsorted.
    + by apply sort_by_start_page_nil in Hsorted.
    + rewrite unique_chapter_starts_cons. eauto.
  - intros src save_ok chapter_level. unfold extract_chapters_from_pdf.
    destruct src as [| |reader]; cbn [snd]; [set_solver | set_solver |].
    destruct (outline reader) as [|item rest]; cbn [snd]; [set_solver |].
    set (found := find_chapter_bookmarks reader chapter_level (item :: rest) 0).
    assert (Hwalk : NoValidStarts ∉ found.2).
    { intros Hin. apply find_chapter_bookmarks_prints in Hin as [t Ht]. done. }
    destruct (found.1) as [|ch chs] eqn:Hfound; cbn [snd].
    + rewrite not_elem_of_cons, not_elem_of_app, not_elem_of_cons.
      repeat split; try done.
      case_decide; by intros ?%list_elem_of_singleton.
    + unfold sort_and_dedup.
      destruct (sort_by_start_page (ch :: chs)) as [|first sorted] eqn:Hsorted.
      { by apply sort_by_start_page_nil in Hsorted. }
      rewrite unique_chapter_starts_cons. cbn [snd].
      rewrite not_elem_of_cons, not_elem_of_app, not_elem_of_cons,
        not_elem_of_app.
      repeat split; try done.
      * intros Hin. by apply extract_loop_prints in Hin.
      * by intros ?%list_elem_of_singleton.
Qed.

Lemma sort_and_dedup_nonempty_witness :
  [sample_chapter "B" 2 0; sample_chapter "A" 0 0] <> []
  /\ exists first rest rest',
      sort_by_start_page [sample_chapter "B" 2 0; sample_chapter "A" 0 0]
        = first :: rest
      /\ sort_and_dedup [sample_chapter "B" 2 0; sample_chapter "A" 0 0]
        = first :: rest'.
Proof.
  split; [done |].
  apply (sort_and_dedup_nonempty
           [sample_chapter "B" 2 0; sample_chapter "A" 0 0]). done.
Defined.

(** ** The emitter: main results *)

Lemma extract_chapter_file reader save_ok chapter_starts i f :
  f ∈ (extract_chapter reader save_ok chapter_starts i).1 ->
  exists ch,
    chapter_starts !! i = Some ch
    /\ check_range reader (start_page ch) (end_page_idx reader chapter_starts i)
       = RangeOk
    /\ f = (output_filename i (title ch),
            copyable_pages reader (start_page ch)
              (end_page_idx reader chapter_starts i)).
Proof.
  destruct (chapter_starts !! i) as [ch|] eqn:Hch.
  - destruct (check_range reader (start_page ch)
                (end_page_idx reader chapter_starts i)) eqn:Hcheck.
    + rewrite (extract_chapter_valid _ _ _ _ _ Hch Hcheck).
      case_decide; [by intros ?%not_elem_of_nil |].
      destruct (save_ok _); [| by intros ?%not_elem_of_nil].
      intros ->%list_elem_of_singleton. eauto.
    + unfold extract_chapter. rewrite Hch. cbv zeta. rewrite Hcheck.
      by intros ?%not_elem_of_nil.
    + unfold extract_chapter. rewrite Hch. cbv zeta. rewrite Hcheck.
      by intros ?%not_elem_of_nil.
  - unfold extract_chapter. rewrite Hch. by intros ?%not_elem_of_nil.
Qed.

(** C1, as the code has it. Every file a run writes is named after the
    position of its chapter in the sorted, deduplicated list of bookmarks:
    the chapter at index [i] of that list is written as the three-digit
    form of [i + 1], an underscore, the sanitized title and [.pdf]. Skipped
    chapters use up their number. *)
Theorem output_filename_by_list_position src save_ok chapter_level name pages :
  (name, pages) ∈ (extract_chapters_from_pdf src save_ok chapter_level).1 ->
  exists reader i ch,
    src = Parsed reader
    /\ sort_and_dedup
         (find_chapter_bookmarks reader chapter_level (outline reader) 0).1
       !! i = Some ch
    /\ name = format_03d (i + 1) ++ py "_" ++ sanitize_filename (title ch)
              ++ py ".pdf"
    /\ pages = copyable_pages reader (start_page ch)
                 (end_page_idx reader
                    (sort_and_dedup
                       (find_chapter_bookmarks reader chapter_level
                          (outline reader) 0).1) i).
Proof.
  unfold extract_chapters_from_pdf.
  destruct src as [| |reader]; cbn [fst]; try by intros ?%not_elem_of_nil.
  destruct (outline reader) as [|item rest] eqn:Hout; cbn [fst];
    [by intros ?%not_elem_of_nil |].
  destruct ((find_chapter_bookmarks reader chapter_level (item :: rest) 0).1)
    as [|c cs] eqn:Hfound; cbn [fst]; [by intros ?%not_elem_of_nil |].
  destruct (sort_and_dedup (c :: cs)) as [|first others] eqn:Hstarts; cbn [fst];
    [by intros ?%not_elem_of_nil |].
  intros (i & _ & Hfile)%extract_loop_files.
  apply extract_chapter_file in Hfile as (ch & Hch & _ & [= -> ->]).
  exists reader, i, ch. by rewrite Hout, Hfound, Hstarts.
Qed.

Lemma output_filename_by_list_position_witness :
  (py "002_B.pdf", [2; 3; 4]) ∈
    (extract_chapters_from_pdf (Parsed (sample_reader (fun p => 2 <=? p)))
       (fun _ => true) 0).1
  /\ exists reader i ch,
      Parsed (sample_reader (fun p => 2 <=? p)) = Parsed reader
      /\ sort_and_dedup (find_chapter_bookmarks reader 0 (outline reader) 0).1
         !! i = Some ch
      /\ py "002_B.pdf" = format_03d (i + 1) ++ py "_"
                          ++ sanitize_filename (title ch) ++ py ".pdf"
      /\ [2; 3; 4] = copyable_pages reader (start_page ch)
                       (end_page_idx reader
                          (sort_and_dedup
                             (find_chapter_bookmarks reader 0
                                (outline reader) 0).1) i).
Proof.
  assert (Hfile : (py "002_B.pdf", [2; 3; 4]) ∈
    (extract_chapters_from_pdf (Parsed (sample_reader (fun p => 2 <=? p)))
       (fun _ => true) 0).1).
  { vm_compute. left. }
  split; [exact Hfile |].
  exact (output_filename_by_list_position _ _ _ _ _ Hfile).
Defined.

(** C1, as the specification words it, fails: when pages 0 and 1 cannot be
    copied, chapter A of the sample document is skipped and chapter B, the
    only file written, is numbered 002 and not 001. *)
Lemma skipped_chapter_uses_its_number :
  (extract_chapters_from_pdf (Parsed (sample_reader (fun p => 2 <=? p)))
     (fun _ => true) 0).1 = [(py "002_B.pdf", [2; 3; 4])]
  /\ ~ numbered_by_emission
       (extract_chapters_from_pdf (Parsed (sample_reader (fun p => 2 <=? p)))
          (fun _ => true) 0).1.
Proof.
  assert (Hrun :
    (extract_chapters_from_pdf (Parsed (sample_reader (fun p => 2 <=? p)))
       (fun _ => true) 0).1 = [(py "002_B.pdf", [2; 3; 4])])
    by (vm_compute; reflexivity).
  split; [exact Hrun |].
  rewrite Hrun. intros Hnum.
  destruct (Hnum O (py "002_B.pdf") [2; 3; 4] eq_refl) as [t Ht].
  vm_compute in Ht. discriminate Ht.
Qed.

(** C3. The chapter at index [i] ends one page before the next record
    starts when there is a next record, and on the last page of the
    document otherwise; this is the range the iteration checks and
    reports (with page numbers counted from 1). *)
Theorem end_page_from_next_start reader save_ok chapter_starts i ch :
  chapter_starts !! i = Some ch ->
  let last := end_page_idx reader chapter_starts i in
  ((i + 1 < length chapter_starts)%nat ->
   exists next_chapter,
     chapter_starts !! (i + 1)%nat = Some next_chapter
     /\ last = start_page next_chapter - 1)
  /\ (~ (i + 1 < length chapter_starts)%nat ->
      last = Z.of_nat (num_pages reader) - 1)
  /\ exists l rest,
      (extract_chapter reader save_ok chapter_starts i).2 = l :: rest
      /\ (l = SkipEmptyRange (title ch) (start_page ch + 1) (last + 1)
          \/ l = SkipInvalidRange (title ch) (start_page ch + 1) (last + 1)
                   (Z.of_nat (num_pages reader))
          \/ l = Extracting (title ch) (start_page ch + 1) (last + 1)).
Proof.
  intros Hch. cbv zeta. repeat split.
  - intros [next_chapter Hnext]%next_chapter_guard.
    exists next_chapter. split; [done |]. by apply end_page_idx_next.
  - apply end_page_idx_last.
  - destruct (check_range reader (start_page ch)
                (end_page_idx reader chapter_starts i)) eqn:Hcheck.
    + rewrite (extract_chapter_valid _ save_ok _ _ _ Hch Hcheck).
      case_decide; [| destruct (save_ok _)]; cbn [snd];
        (do 2 eexists; split; [reflexivity | by do 2 right]).
    + unfold extract_chapter. rewrite Hch. cbv zeta. rewrite Hcheck.
      cbn [snd]. do 2 eexists; split; [reflexivity | by left].
    + unfold extract_chapter. rewrite Hch. cbv zeta. rewrite Hcheck.
      cbn [snd]. do 2 eexists; split; [reflexivity | by right; left].
Qed.

Lemma end_page_from_next_start_witness :
  [sample_chapter "A" 0 0; sample_chapter "B" 2 0] !! 0%nat
    = Some (sample_chapter "A" 0 0)
  /\ (exists next_chapter,
         [sample_chapter "A" 0 0; sample_chapter "B" 2 0] !! 1%nat
           = Some next_chapter
         /\ end_page_idx (sample_reader (fun _ => true))
              [sample_chapter "A" 0 0; sample_chapter "B" 2 0] 0
            = start_page next_chapter - 1).
Proof.
  split; [reflexivity |].
  apply (end_page_from_next_start (sample_reader (fun _ => true))
           (fun _ => true)
           [sample_chapter "A" 0 0; sample_chapter "B" 2 0] 0
           (sample_chapter "A" 0 0) eq_refl).
  simpl. lia.
Defined.

(** The scenario of a five-page document with bookmarks on pages 0 and 2:
    ranges (0, 1) and (2, 4). *)
Example five_pages_two_chapters :
  let chapter_starts := [sample_chapter "A" 0 0; sample_chapter "B" 2 0] in
  let reader := sample_reader (fun _ => true) in
  end_page_idx reader chapter_starts 0 = 1
  /\ end_page_idx reader chapter_starts 1 = 4
  /\ (extract_loop reader (fun _ => true) chapter_starts).1
     = [(py "001_A.pdf", [0; 1]); (py "002_B.pdf", [2; 3; 4])].
Proof. vm_compute. done. Qed.

(** C6. A chapter whose first and last page coincide is not rejected as an
    empty span; within the document it passes both checks and goes on to
    extraction, and it is written with its single page when that page can
    be copied and the file saved.
    A chapter whose first page lies after its last, or that has a bound
    outside the document, writes nothing and prints one warning. In every
    case the loop goes on: the files and lines of a run are those of all
    indices, in order. *)
Theorem single_page_accepted_bad_range_skipped
  reader save_ok chapter_starts i ch :
  chapter_starts !! i = Some ch ->
  let first := start_page ch in
  let last := end_page_idx reader chapter_starts i in
  let total := Z.of_nat (num_pages reader) in
  let name := output_filename i (title ch) in
  (first = last -> check_range reader first last <> RangeEmpty)
  /\ (first = last -> 0 <= first < total ->
      check_range reader first last = RangeOk
      /\ (exists rest,
            (extract_chapter reader save_ok chapter_starts i).2 =
            Extracting (title ch) (first + 1) (last + 1) :: rest)
      /\ (page_copies reader first = true -> save_ok name = true ->
          extract_chapter reader save_ok chapter_starts i =
          ([(name, [first])],
           [Extracting (title ch) (first + 1) (last + 1); Saved name])))
  /\ (first > last ->
      extract_chapter reader save_ok chapter_starts i =
      ([], [SkipEmptyRange (title ch) (first + 1) (last + 1)]))
  /\ (first <= last -> ~ (0 <= first < total /\ 0 <= last < total) ->
      extract_chapter reader save_ok chapter_starts i =
      ([], [SkipInvalidRange (title ch) (first + 1) (last + 1) total]))
  /\ (extract_loop reader save_ok chapter_starts).1 =
     seq 0 (length chapter_starts)
       ≫= (fun j => (extract_chapter reader save_ok chapter_starts j).1)
  /\ (extract_loop reader save_ok chapter_starts).2 =
     seq 0 (length chapter_starts)
       ≫= (fun j => (extract_chapter reader save_ok chapter_starts j).2).
Proof.
  intros Hch. cbv zeta.
  split; [| split; [| split; [| split; [| split]]]].
  - intros Heq Hempty. apply check_range_empty in Hempty. lia.
  - intros Heq Hin.
    assert (Hok : check_range reader (start_page ch)
                    (end_page_idx reader chapter_starts i) = RangeOk).
    { apply check_range_ok. unfold num_pages_total. lia. }
    split; [done |]. split.
    { rewrite (extract_chapter_valid _ save_ok _ _ _ Hch Hok).
      case_decide; [| destruct (save_ok _)]; cbn [snd]; eauto. }
    intros Hcopy Hsave.
    rewrite (extract_chapter_valid _ save_ok _ _ _ Hch Hok).
    rewrite copy_pages_printed. unfold copyable_pages.
    rewrite <- Heq.
    replace (start_page ch + 1 - start_page ch) with 1 by lia.
    change (seqZ (start_page ch) 1) with [0 + start_page ch].
    rewrite Z.add_0_l, !filter_cons, !filter_nil.
    rewrite Hcopy. simpl. by rewrite Hsave.
  - intros Hgt. unfold extract_chapter. rewrite Hch. cbv zeta.
    by rewrite (proj2 (check_range_empty _ _ _) Hgt).
  - intros Hle Hout. unfold extract_chapter. rewrite Hch. cbv zeta.
    by rewrite (proj2 (check_range_invalid _ _ _) (conj Hle Hout)).
  - apply for_each_results.
  - apply for_each_printed.
Qed.

Lemma single_page_accepted_bad_range_skipped_witness :
  [sample_chapter "A" 0 0; sample_chapter "B" 1 0] !! 0%nat
    = Some (sample_chapter "A" 0 0)
  /\ extract_chapter (sample_reader (fun _ => true)) (fun _ => true)
       [sample_chapter "A" 0 0; sample_chapter "B" 1 0] 0
     = ([(py "001_A.pdf", [0])], [Extracting (py "A") 1 1; Saved (py "001_A.pdf")]).
Proof.
  split; [reflexivity |].
  apply (single_page_accepted_bad_range_skipped
           (sample_reader (fun _ => true)) (fun _ => true)
           [sample_chapter "A" 0 0; sample_chapter "B" 1 0] 0
           (sample_chapter "A" 0 0) eq_refl);
    [reflexivity | simpl; lia | reflexivity | reflexivity].
Defined.

(** C8. Once a range passed the checks, the pages written are the pages of
    the range that could be copied, in order, and each page that could not
    is reported; when none could be copied the chapter prints a warning and
    writes no file. *)
Theorem failed_pages_skipped_empty_chapter_dropped
  reader save_ok chapter_starts i ch :
  chapter_starts !! i = Some ch ->
  let first := start_page ch in
  let last := end_page_idx reader chapter_starts i in
  check_range reader first last = RangeOk ->
  let pages := copyable_pages reader first last in
  let name := output_filename i (title ch) in
  let out := extract_chapter reader save_ok chapter_starts i in
  (forall p, p ∈ pages <-> first <= p <= last /\ page_copies reader p = true)
  /\ (forall p, first <= p <= last -> page_copies reader p = false ->
        ErrAddPage (p + 1) (title ch) ∈ out.2)
  /\ (pages <> [] -> save_ok name = true -> out.1 = [(name, pages)])
  /\ (pages = [] ->
      out = ([], Extracting (title ch) (first + 1) (last + 1)
                   :: (copy_pages reader (title ch) first last).2
                   ++ [SkipNoPages (title ch)])).
Proof.
  intros Hch. cbv zeta. intros Hok.
  rewrite (extract_chapter_valid _ save_ok _ _ _ Hch Hok).
  split; [| split; [| split]].
  - intros p. unfold copyable_pages.
    rewrite list_elem_of_filter, elem_of_seqZ. split; intros [? ?]; split;
      (done || lia).
  - intros p Hp Hfail.
    assert (Hin : ErrAddPage (p + 1) (title ch) ∈
                    (copy_pages reader (title ch) (start_page ch)
                       (end_page_idx reader chapter_starts i)).2).
    { rewrite copy_pages_printed. apply list_elem_of_fmap. exists p.
      split; [done |]. apply list_elem_of_filter. split; [done |].
      apply elem_of_seqZ. lia. }
    case_decide; [| destruct (save_ok _)]; cbn [snd];
      rewrite elem_of_cons, elem_of_app; auto.
  - intros Hpages Hsave. rewrite decide_False by done. by rewrite Hsave.
  - intros Hpages. by rewrite decide_True by done.
Qed.

Lemma failed_pages_skipped_empty_chapter_dropped_witness :
  [sample_chapter "A" 0 0; sample_chapter "B" 2 0] !! 1%nat
    = Some (sample_chapter "B" 2 0)
  /\ check_range (sample_reader (fun p => negb (p =? 3))) 2
       (end_page_idx (sample_reader (fun p => negb (p =? 3)))
          [sample_chapter "A" 0 0; sample_chapter "B" 2 0] 1) = RangeOk
  /\ (extract_chapter (sample_reader (fun p => negb (p =? 3)))
        (fun _ => true)
        [sample_chapter "A" 0 0; sample_chapter "B" 2 0] 1).1
     = [(py "002_B.pdf", [2; 4])].
Proof.
  split; [reflexivity |]. split; [reflexivity |].
  apply (failed_pages_skipped_empty_chapter_dropped
           (sample_reader (fun p => negb (p =? 3))) (fun _ => true)
           [sample_chapter "A" 0 0; sample_chapter "B" 2 0] 1
           (sample_chapter "B" 2 0) eq_refl eq_refl);
    [discriminate | reflexivity].
Defined.

(** A page that cannot be copied is left out and the others are kept; a
    chapter none of whose pages can be copied writes nothing. *)
Example page_three_fails :
  extract_loop (sample_reader (fun p => negb (p =? 3))) (fun _ => true)
    [sample_chapter "A" 0 0; sample_chapter "B" 2 0]
  = ([(py "001_A.pdf", [0; 1]); (py "002_B.pdf", [2; 4])],
     [Extracting (py "A") 1 2; Saved (py "001_A.pdf");
      Extracting (py "B") 3 5; ErrAddPage 4 (py "B"); Saved (py "002_B.pdf")]).
Proof. vm_compute. reflexivity. Qed.

(** ** sanitize_filename *)

Example sanitize_empty : sanitize_filename [] = py "untitled".
Proof. reflexivity. Qed.

Example sanitize_slash_colon : sanitize_filename (py "A/B:C") = py "A_B_C".
Proof. vm_compute. reflexivity. Qed.

Example sanitize_spaces :
  sanitize_filename (py "  Part   One  ") = py "Part One".
Proof. vm_compute. reflexivity. Qed.

(** The second placeholder is what a title of white space alone gives. *)
Example sanitize_blank : sanitize_filename (py "   ") = py "untitled_chapter".
Proof. vm_compute. reflexivity. Qed.

Lemma is_invalid_not_space c : is_invalid c = true -> is_space c = false.
Proof.
  unfold is_invalid, invalid_chars. intros Hc%bool_decide_eq_true.
  repeat (apply elem_of_cons in Hc as [-> | Hc]; [reflexivity |]).
  by apply not_elem_of_nil in Hc.
Qed.

Lemma sub_invalid_no_space name :
  Forall (fun c => is_space c = false) name ->
  Forall (fun c => is_space c = false) (sub_invalid name).
Proof.
  unfold sub_invalid. intros Hname. apply Forall_fmap.
  eapply Forall_impl; [exact Hname |]. intros c Hc. simpl.
  by destruct (is_invalid c).
Qed.

Lemma sub_spaces_no_space name :
  Forall (fun c => is_space c = false) name ->
  forall in_run, sub_spaces in_run name = name.
Proof.
  induction 1 as [|c name Hc _ IH]; intros in_run; simpl; [done |].
  by rewrite Hc, IH.
Qed.

Lemma lstrip_no_space name :
  Forall (fun c => is_space c = false) name -> lstrip name = name.
Proof. destruct 1 as [|c name Hc _]; simpl; [done | by rewrite Hc]. Qed.

Lemma strip_no_space name :
  Forall (fun c => is_space c = false) name -> strip name = name.
Proof.
  intros Hname. unfold strip, rstrip. rewrite (lstrip_no_space name) by done.
  rewrite lstrip_no_space by by apply Forall_reverse.
  apply reverse_involutive.
Qed.

(** Without white space the result is the title with its invalid characters
    replaced, cut after 150 characters. *)
Lemma sanitize_filename_no_space name :
  name <> [] ->
  Forall (fun c => is_space c = false) name ->
  sanitize_filename name = take 150 (sub_invalid name).
Proof.
  intros Hne Hname. destruct name as [|c name]; [done |].
  unfold sanitize_filename.
  rewrite sub_spaces_no_space, strip_no_space by by apply sub_invalid_no_space.
  reflexivity.
Qed.

(** A title of 300 characters without white space is cut to 150. *)
Lemma sanitize_filename_truncates name :
  length name = 300%nat ->
  Forall (fun c => is_space c = false) name ->
  length (sanitize_filename name) = 150%nat.
Proof.
  intros Hlen Hname. rewrite sanitize_filename_no_space; [| | done].
  - unfold sub_invalid. rewrite length_take, length_map. lia.
  - intros ->. discriminate Hlen.
Qed.

Lemma sanitize_filename_length name :
  (length (sanitize_filename name) <= 150)%nat.
Proof.
  unfold sanitize_filename. destruct name as [|c name]; [simpl; lia |].
  destruct (take 150 _) as [|x xs] eqn:Htake; [simpl; lia |].
  rewrite <- Htake, length_take. lia.
Qed.

Lemma sub_invalid_invalid_only name :
  Forall (fun c => is_invalid c = true) name ->
  sub_invalid name = replicate (length name) 95%N.
Proof.
  induction 1 as [|c name Hc _ IH]; simpl; [done |].
  by rewrite Hc, <- IH.
Qed.

(** A title made of invalid characters only comes out as underscores. *)
Lemma sanitize_filename_invalid_only name :
  name <> [] ->
  Forall (fun c => is_invalid c = true) name ->
  sanitize_filename name = replicate (min 150 (length name)) 95%N.
Proof.
  intros Hne Hname. rewrite sanitize_filename_no_space; [| done |].
  - rewrite sub_invalid_invalid_only by done. apply take_replicate.
  - eapply Forall_impl; [exact Hname |]. apply is_invalid_not_space.
Qed.

(** C2. The title made of the nine invalid characters is not replaced by
    the placeholder: each character becomes an underscore and the result,
    not being empty, is returned. *)
Theorem sanitize_filename_invalid_chars_title :
  Forall (fun c => is_invalid c = true) invalid_chars
  /\ sanitize_filename invalid_chars = py "_________"
  /\ sanitize_filename invalid_chars <> py "untitled_chapter".
Proof.
  split; [| split].
  - unfold is_invalid, invalid_chars. repeat constructor.
  - rewrite sanitize_filename_invalid_only.
    + reflexivity.
    + discriminate.
    + unfold is_invalid, invalid_chars. repeat constructor.
  - vm_compute. discriminate.
Qed.

(** ** The stable sort is determined by its contract *)

Lemma starting_at_elem p ch l :
  ch ∈ starting_at p l <-> start_page ch = p /\ ch ∈ l.
Proof. unfold starting_at. by rewrite list_elem_of_filter. Qed.

Lemma sorted_stable_unique l1 :
  forall l2,
    StronglySorted page_le l1 -> StronglySorted page_le l2 ->
    (forall p, starting_at p l1 = starting_at p l2) ->
    l1 = l2.
Proof.
  induction l1 as [|x l1 IH]; intros l2 Hs1 Hs2 Hsame.
  - destruct l2 as [|y l2]; [done |].
    specialize (Hsame (start_page y)). rewrite starting_at_cons in Hsame.
    by rewrite decide_True in Hsame by done.
  - destruct l2 as [|y l2].
    { specialize (Hsame (start_page x)). rewrite starting_at_cons in Hsame.
      by rewrite decide_True in Hsame by done. }
    apply StronglySorted_inv in Hs1 as [Hs1 Hx].
    apply StronglySorted_inv in Hs2 as [Hs2 Hy].
    rewrite Forall_forall in Hx, Hy.
    assert (Hxy : start_page x = start_page y).
    { assert (x ∈ y :: l2) as [-> | Hin]%elem_of_cons; [| done |].
      - eapply (proj1 (starting_at_elem (start_page x) x (y :: l2))).
        rewrite <- Hsame. apply starting_at_elem. split; [done | by left].
      - assert (y ∈ x :: l1) as [-> | Hin']%elem_of_cons; [| done |].
        + eapply (proj1 (starting_at_elem (start_page y) y (x :: l1))).
          rewrite Hsame. apply starting_at_elem. split; [done | by left].
        + specialize (Hx _ Hin'). specialize (Hy _ Hin).
          unfold page_le in *. lia. }
    pose proof (Hsame (start_page x)) as Hhead.
    rewrite !starting_at_cons, decide_True, decide_True in Hhead by done.
    injection Hhead as <- Htail. f_equal.
    apply IH; [done | done |]. intros p.
    destruct (decide (start_page x = p)) as [<- | Hne]; [done |].
    specialize (Hsame p). rewrite !starting_at_cons in Hsame.
    by rewrite !decide_False in Hsame by done.
Qed.

(** X19. Any sort that returns the records in ascending page order and keeps
    the order of records with equal pages, as [list.sort] does, returns what
    [sort_by_start_page] returns. *)
Lemma stable_sort_unique raw sorted :
  StronglySorted page_le sorted ->
  (forall p, starting_at p sorted = starting_at p raw) ->
  sorted = sort_by_start_page raw.
Proof.
  intros Hsorted Hstable. apply sorted_stable_unique; [done | |].
  - apply sort_by_start_page_sorted.
  - intros p. by rewrite sort_by_start_page_stable.
Qed.

(** ** Scenarios *)

(** Two bookmarks on page 3: the one met first is kept, the other dropped. *)
Example same_page_keeps_first :
  sort_and_dedup [sample_chapter "Chapter 1" 3 0; sample_chapter "1. Intro" 3 0;
                  sample_chapter "Preface" 0 0]
  = [sample_chapter "Preface" 0 0; sample_chapter "Chapter 1" 3 0].
Proof. vm_compute. reflexivity. Qed.

(** The walker on the sample outline, level by level. *)
Example sample_levels :
  let reader := sample_reader (fun _ => true) in
  (find_chapter_bookmarks reader 0 (outline reader) 0).1
    = [sample_chapter "A" 0 0; sample_chapter "B" 2 0]
  /\ (find_chapter_bookmarks reader 1 (outline reader) 0).1
     = [sample_chapter "A1" 0 1; sample_chapter "A2" 1 1]
  /\ (find_chapter_bookmarks reader 2 (outline reader) 0).1 = []
  /\ merge_sort Z.le
       (elements (get_available_bookmark_levels (outline reader) 0)) = [0; 1].
Proof. vm_compute. done. Qed.

(** A level without bookmarks: nothing is written and the levels that have
    bookmarks are named. *)
Example level_without_bookmarks :
  extract_chapters_from_pdf (Parsed (sample_reader (fun _ => true)))
    (fun _ => true) 2
  = ([], [Processing; NoBookmarksAtLevel 2; BookmarksAtLevels [0; 1]]).
Proof. vm_compute. reflexivity. Qed.

(** A bookmark past the end of the document is skipped as an empty span. *)
Example bookmark_past_the_end :
  extract_loop (sample_reader (fun _ => true)) (fun _ => true)
    [sample_chapter "A" 0 0; sample_chapter "Z" 7 0]
  = ([], [SkipInvalidRange (py "A") 1 7 5; SkipEmptyRange (py "Z") 8 5]).
Proof. vm_compute. reflexivity. Qed.

(** * Further properties *)

(** ** sanitize_filename: shape of the result *)

(** The name before the cut of line 18. *)
Lemma sanitize_filename_unfold c name :
  sanitize_filename (c :: name) =
  match take 150 (strip (sub_spaces false (sub_invalid (c :: name)))) with
  | [] => py "untitled_chapter"
  | x :: xs => x :: xs
  end.
Proof.
  unfold sanitize_filename.
  by destruct (take 150 (strip (sub_spaces false (sub_invalid (c :: name))))).
Qed.

Lemma lstrip_split name :
  exists ws, name = ws ++ lstrip name /\ Forall (fun c => is_space c = true) ws.
Proof.
  induction name as [|c name (ws & Hname & Hws)]; simpl.
  - by exists [].
  - destruct (is_space c) eqn:Hc.
    + exists (c :: ws). split; [by rewrite <- app_comm_cons, <- Hname |].
      by constructor.
    + by exists [].
Qed.

Lemma rstrip_split name :
  exists ws, name = rstrip name ++ ws /\ Forall (fun c => is_space c = true) ws.
Proof.
  destruct (lstrip_split (reverse name)) as (ws & Hname & Hws).
  exists (reverse ws). split; [| by apply Forall_reverse].
  unfold rstrip. rewrite <- reverse_app, <- Hname. by rewrite reverse_involutive.
Qed.

Lemma Forall_lstrip (P : N -> Prop) name : Forall P name -> Forall P (lstrip name).
Proof.
  destruct (lstrip_split name) as (ws & Hname & _). rewrite Hname at 1.
  by intros [_ ?]%Forall_app.
Qed.

Lemma Forall_rstrip (P : N -> Prop) name : Forall P name -> Forall P (rstrip name).
Proof.
  destruct (rstrip_split name) as (ws & Hname & _). rewrite Hname at 1.
  by intros [? _]%Forall_app.
Qed.

Lemma Forall_strip (P : N -> Prop) name : Forall P name -> Forall P (strip name).
Proof. intros. by apply Forall_rstrip, Forall_lstrip. Qed.

Lemma Forall_sub_spaces (P : N -> Prop) name :
  P 32%N -> Forall P name -> forall in_run, Forall P (sub_spaces in_run name).
Proof.
  intros Hspace. induction 1 as [|c name Hc _ IH]; intros in_run; simpl; [done |].
  destruct (is_space c); [destruct in_run |]; auto.
Qed.

Lemma sub_invalid_valid name :
  Forall (fun c => is_invalid c = false) (sub_invalid name).
Proof.
  unfold sub_invalid. apply Forall_fmap, Forall_forall. intros c _. simpl.
  by destruct (is_invalid c) eqn:Hc.
Qed.

(** X1. The result is never empty and never longer than 150 characters. *)
Theorem sanitize_filename_usable name :
  sanitize_filename name <> [] /\ (length (sanitize_filename name) <= 150)%nat.
Proof.
  split; [| apply sanitize_filename_length].
  destruct name as [|c name]; [done |].
  rewrite sanitize_filename_unfold. by destruct (take 150 _).
Qed.

(** X2. No character of the class replaced on line 14 is left in the
    result, whatever the title. *)
Theorem sanitize_filename_valid_chars name :
  Forall (fun c => is_invalid c = false) (sanitize_filename name).
Proof.
  destruct name as [|c name]; [by repeat constructor |].
  rewrite sanitize_filename_unfold.
  assert (Hcut : Forall (fun c => is_invalid c = false)
                   (take 150 (strip (sub_spaces false (sub_invalid (c :: name)))))).
  { apply Forall_take, Forall_strip, Forall_sub_spaces; [done |].
    apply sub_invalid_valid. }
  destruct (take 150 _); [by repeat constructor | done].
Qed.

Lemma spaced_weaken name : spaced true name -> spaced false name.
Proof.
  destruct name as [|c name]; simpl; [done |].
  destruct (is_space c); [| done]. by intros (_ & [=] & _).
Qed.

Lemma spaced_sub_spaces name : forall in_run, spaced in_run (sub_spaces in_run name).
Proof.
  induction name as [|c name IH]; intros in_run; simpl; [done |].
  destruct (is_space c) eqn:Hc.
  - destruct in_run.
    + specialize (IH true). destruct (sub_spaces true name) as [|x xs] eqn:Hrest;
        [done |].
      revert IH. simpl. destruct (is_space x); [by intros (_ & [=] & _) | done].
    + simpl. split; [done |]. split; [done |]. apply IH.
  - simpl. rewrite Hc. apply IH.
Qed.

Lemma spaced_lstrip name in_run : spaced in_run name -> spaced true (lstrip name).
Proof.
  revert in_run. induction name as [|c name IH]; intros in_run; simpl; [done |].
  destruct (is_space c) eqn:Hc.
  - intros (_ & _ & Hrest). by eapply IH.
  - intros Hrest. simpl. by rewrite Hc.
Qed.

Lemma spaced_prefix name rest :
  forall in_run, spaced in_run (name ++ rest) -> spaced in_run name.
Proof.
  induction name as [|c name IH]; intros in_run; simpl; [done |].
  destruct (is_space c).
  - intros (? & ? & ?). repeat split; try done. by apply IH.
  - apply IH.
Qed.

Lemma spaced_rstrip name in_run : spaced in_run name -> spaced in_run (rstrip name).
Proof.
  destruct (rstrip_split name) as (ws & Hname & _). rewrite Hname at 1.
  apply spaced_prefix.
Qed.

Lemma spaced_take n name in_run : spaced in_run name -> spaced in_run (take n name).
Proof. rewrite <- (take_drop n name) at 1. apply spaced_prefix. Qed.

(** X3. In the result white space only occurs as single spaces between
    other characters, and never in front: tabs, line breaks and runs of
    spaces of the title are gone. *)
Theorem sanitize_filename_spacing name : spaced true (sanitize_filename name).
Proof.
  destruct name as [|c name]; [by vm_compute |].
  rewrite sanitize_filename_unfold.
  assert (Hcut : spaced true
                   (take 150 (strip (sub_spaces false (sub_invalid (c :: name)))))).
  { apply spaced_take, spaced_rstrip. eapply spaced_lstrip, spaced_sub_spaces. }
  destruct (take 150 _); [by vm_compute | done].
Qed.

(** ** sanitize_filename: blank titles and repeated use *)

Lemma is_space_not_invalid c : is_space c = true -> is_invalid c = false.
Proof.
  intros Hc. destruct (is_invalid c) eqn:Hinv; [| done].
  apply is_invalid_not_space in Hinv. congruence.
Qed.

Lemma sub_invalid_id name :
  Forall (fun c => is_invalid c = false) name -> sub_invalid name = name.
Proof.
  induction 1 as [|c name Hc _ IH]; simpl; [done |]. by rewrite Hc, IH.
Qed.

Lemma sub_spaces_blank name :
  Forall (fun c => is_space c = true) name -> sub_spaces true name = [].
Proof. induction 1 as [|c name Hc _ IH]; simpl; [done |]. by rewrite Hc. Qed.

Lemma lstrip_blank name :
  Forall (fun c => is_space c = true) name <-> lstrip name = [].
Proof.
  split.
  - induction 1 as [|c name Hc _ IH]; simpl; [done |]. by rewrite Hc.
  - intros Hnil. destruct (lstrip_split name) as (ws & Hname & Hws).
    by rewrite Hname, Hnil, app_nil_r.
Qed.

Lemma strip_blank name :
  Forall (fun c => is_space c = true) name <-> strip name = [].
Proof.
  split.
  - intros Hname. unfold strip. by rewrite (proj1 (lstrip_blank name)).
  - intros Hnil. unfold strip in Hnil.
    destruct (lstrip_split name) as (ws & Hname & Hws).
    destruct (rstrip_split (lstrip name)) as (ws' & Hname' & Hws').
    rewrite Hnil in Hname'. rewrite Hname, Hname'. by apply Forall_app.
Qed.

Lemma sub_spaces_blank_inv name :
  forall in_run,
    Forall (fun c => is_space c = true) (sub_spaces in_run name) ->
    Forall (fun c => is_space c = true) name.
Proof.
  induction name as [|c name IH]; intros in_run; simpl; [done |].
  destruct (is_space c) eqn:Hc.
  - destruct in_run.
    + intros ?%IH. by constructor.
    + intros [_ ?%IH]%Forall_cons. by constructor.
  - intros [? _]%Forall_cons. congruence.
Qed.

Lemma sub_invalid_blank_inv name :
  Forall (fun c => is_space c = true) (sub_invalid name) ->
  Forall (fun c => is_space c = true) name.
Proof.
  unfold sub_invalid. intros Hname%Forall_fmap.
  eapply Forall_impl; [exact Hname |]. intros c. simpl.
  by destruct (is_invalid c).
Qed.

(** X4. A non-empty title is replaced by the second placeholder exactly
    when it consists of white space only; any other title keeps its own
    characters, cleaned and cut. *)
Theorem sanitize_filename_blank name :
  name <> [] ->
  (Forall (fun c => is_space c = true) name ->
   sanitize_filename name = py "untitled_chapter")
  /\ (~ Forall (fun c => is_space c = true) name ->
      sanitize_filename name =
      take 150 (strip (sub_spaces false (sub_invalid name)))
      /\ take 150 (strip (sub_spaces false (sub_invalid name))) <> []).
Proof.
  intros Hne. destruct name as [|c name]; [done |]. split.
  - intros Hblank. rewrite sanitize_filename_unfold.
    rewrite sub_invalid_id
      by (eapply Forall_impl; [exact Hblank | apply is_space_not_invalid]).
    apply Forall_cons in Hblank as [Hc Hblank]. simpl. rewrite Hc.
    by rewrite sub_spaces_blank.
  - intros Hsome. rewrite sanitize_filename_unfold.
    destruct (strip (sub_spaces false (sub_invalid (c :: name))))
      as [|x xs] eqn:Hcore; [| done].
    destruct Hsome.
    by apply sub_invalid_blank_inv, (sub_spaces_blank_inv _ false), strip_blank.
Qed.

Lemma sanitize_filename_blank_witness :
  py " " <> [] /\ sanitize_filename (py " ") = py "untitled_chapter".
Proof.
  split; [discriminate |].
  apply (sanitize_filename_blank (py " ")); [discriminate |].
  by repeat constructor.
Defined.

Lemma sub_spaces_id name :
  forall in_run, spaced in_run name -> sub_spaces in_run name = name.
Proof.
  induction name as [|c name IH]; intros in_run; simpl; [done |].
  destruct (is_space c).
  - intros (-> & -> & Hrest). by rewrite IH.
  - intros Hrest. by rewrite IH.
Qed.

Lemma lstrip_id name : spaced true name -> lstrip name = name.
Proof.
  destruct name as [|c name]; simpl; [done |].
  destruct (is_space c); [by intros (_ & [=] & _) | done].
Qed.

Lemma lstrip_idemp name : lstrip (lstrip name) = lstrip name.
Proof.
  induction name as [|c name IH]; simpl; [done |].
  destruct (is_space c) eqn:Hc; [done |]. simpl. by rewrite Hc.
Qed.

Lemma rstrip_idemp name : rstrip (rstrip name) = rstrip name.
Proof. unfold rstrip. by rewrite reverse_involutive, lstrip_idemp. Qed.

Lemma length_sub_spaces name :
  forall in_run, (length (sub_spaces in_run name) <= length name)%nat.
Proof.
  induction name as [|c name IH]; intros in_run; simpl; [done |].
  pose proof (IH true). pose proof (IH false).
  destruct (is_space c); [destruct in_run |]; simpl; lia.
Qed.

Lemma length_strip name : (length (strip name) <= length name)%nat.
Proof.
  destruct (lstrip_split name) as (ws & Hname & _).
  destruct (rstrip_split (lstrip name)) as (ws' & Hname' & _).
  unfold strip. rewrite Hname at 2. rewrite Hname' at 2.
  rewrite !length_app. lia.
Qed.

(** X5. On a title of at most 150 characters sanitizing twice gives what
    sanitizing once gives. *)
Theorem sanitize_filename_idempotent name :
  (length name <= 150)%nat ->
  sanitize_filename (sanitize_filename name) = sanitize_filename name.
Proof.
  intros Hlen. destruct name as [|c name]; [by vm_compute |].
  rewrite sanitize_filename_unfold.
  remember (strip (sub_spaces false (sub_invalid (c :: name)))) as core
    eqn:Hcore.
  assert (Hshort : (length core <= 150)%nat).
  { rewrite Hcore. etrans; [apply length_strip |].
    etrans; [apply length_sub_spaces |].
    unfold sub_invalid. by rewrite length_map. }
  assert (Hvalid : Forall (fun c => is_invalid c = false) core).
  { rewrite Hcore. apply Forall_strip, Forall_sub_spaces; [done |].
    apply sub_invalid_valid. }
  assert (Hspaced : spaced true core).
  { rewrite Hcore. apply spaced_rstrip.
    eapply spaced_lstrip, spaced_sub_spaces. }
  assert (Hstrip : strip core = core).
  { unfold strip. rewrite lstrip_id by done.
    rewrite Hcore. unfold strip. apply rstrip_idemp. }
  clear Hcore. rewrite take_ge by done.
  destruct core as [|x xs]; [by vm_compute |].
  rewrite sanitize_filename_unfold.
  rewrite sub_invalid_id, sub_spaces_id by (done || by apply spaced_weaken).
  by rewrite Hstrip, take_ge by done.
Qed.

Lemma sanitize_filename_idempotent_witness :
  (length (py " A/B:  C ") <= 150)%nat
  /\ sanitize_filename (sanitize_filename (py " A/B:  C "))
     = sanitize_filename (py " A/B:  C ").
Proof.
  split; [simpl; lia |].
  apply (sanitize_filename_idempotent (py " A/B:  C ")). simpl. lia.
Defined.

(** The cut of line 18 comes after the strip, so a long title can end in a
    space, which a second pass removes. *)
Example sanitize_filename_cut_leaves_space :
  let name := replicate 149 65%N ++ py " B" in
  sanitize_filename name = replicate 149 65%N ++ py " "
  /\ sanitize_filename (sanitize_filename name) = replicate 149 65%N.
Proof. vm_compute. done. Qed.

(** ** The walker and the prober together *)

Lemma find_chapter_bookmarks_item_dest_printed reader target_level d cur :
  (find_chapter_bookmarks_item reader target_level cur (Dest d)).2 =
  if cur =? target_level then option_list (warning_of reader d) else [].
Proof.
  simpl. unfold warning_of.
  destruct (cur =? target_level); [| done].
  by destruct (get_destination_page_number reader d).
Qed.

Lemma find_chapter_bookmarks_warned reader target_level items :
  forall cur, cur <= target_level ->
    (find_chapter_bookmarks reader target_level items cur).2 =
    omap (warning_of reader) (dests_at (Z.to_nat (target_level - cur)) items).
Proof.
  induction items as [|d rest IH|sub rest IHsub IH] using outline_list_ind;
    intros cur Hcur.
  - done.
  - rewrite find_chapter_bookmarks_cons. cbv zeta. cbn [snd].
    rewrite find_chapter_bookmarks_item_dest_printed, IH, dests_at_cons_dest
      by done.
    destruct (Z.eqb_spec cur target_level) as [-> | Hne].
    + rewrite Z.sub_diag. simpl. by destruct (warning_of reader d).
    + destruct (Z.to_nat (target_level - cur)) eqn:Hn; [lia | done].
  - rewrite find_chapter_bookmarks_cons. cbv zeta. cbn [snd].
    rewrite find_chapter_bookmarks_item_group, IH, dests_at_cons_group by done.
    destruct (Z.ltb_spec cur target_level) as [Hlt | Hge].
    + rewrite IHsub by lia.
      replace (Z.to_nat (target_level - cur))
        with (S (Z.to_nat (target_level - (cur + 1)))) by lia.
      by rewrite omap_app.
    + by replace (Z.to_nat (target_level - cur)) with O by lia.
Qed.

(** X6. For a target level that is not negative the records come in the
    order in which the Destinations of that depth are met, one for each
    Destination the reader resolves, and the warnings likewise, one for each
    Destination on which the reader raises: a bookmark that cannot be
    resolved never hides a later one. *)
Theorem find_chapter_bookmarks_in_order reader target_level items :
  0 <= target_level ->
  let found := find_chapter_bookmarks reader target_level items 0 in
  let at_level := dests_at (Z.to_nat target_level) items in
  found.1 = omap (chapter_of reader target_level) at_level
  /\ found.2 = omap (warning_of reader) at_level.
Proof.
  intros Hlevel. cbv zeta.
  rewrite find_chapter_bookmarks_found, find_chapter_bookmarks_warned by done.
  by rewrite Z.sub_0_r.
Qed.

Lemma find_chapter_bookmarks_in_order_witness :
  0 <= 1
  /\ (find_chapter_bookmarks (sample_reader (fun _ => true)) 1
        (outline (sample_reader (fun _ => true))) 0).1
     = omap (chapter_of (sample_reader (fun _ => true)) 1)
         (dests_at 1 (outline (sample_reader (fun _ => true)))).
Proof.
  split; [lia |].
  apply (find_chapter_bookmarks_in_order (sample_reader (fun _ => true)) 1
           (outline (sample_reader (fun _ => true)))). lia.
Defined.

(** X7. The level prober and the walker agree: a level at which the walker
    finds a record is one of the levels the prober returns, and at a level
    the prober returns the walker finds a record as soon as the reader
    resolves every Destination. *)
Theorem found_level_is_available reader target_level items :
  ((find_chapter_bookmarks reader target_level items 0).1 <> [] ->
   target_level ∈ get_available_bookmark_levels items 0)
  /\ (target_level ∈ get_available_bookmark_levels items 0 ->
      (forall d, exists p, get_destination_page_number reader d = PageNum p) ->
      (find_chapter_bookmarks reader target_level items 0).1 <> []).
Proof.
  split.
  - intros Hfound. destruct (Z.le_gt_cases 0 target_level) as [Hle | Hneg].
    + rewrite find_chapter_bookmarks_found, Z.sub_0_r in Hfound by done.
      destruct (omap _ _) as [|ch chs] eqn:Hrecords; [done |].
      assert (Hch : ch ∈ omap (chapter_of reader target_level)
                      (dests_at (Z.to_nat target_level) items))
        by (rewrite Hrecords; left).
      apply list_elem_of_omap in Hch as (d & Hd%elem_of_dests_at & _).
      apply get_available_bookmark_levels_from.
      exists (Z.to_nat target_level), d. split; [lia | done].
    + by rewrite find_chapter_bookmarks_past_target in Hfound by lia.
  - intros (n & d & -> & Hocc)%get_available_bookmark_levels_from Hresolves.
    rewrite find_chapter_bookmarks_found, Z.sub_0_r by lia.
    rewrite Z.add_0_l, Nat2Z.id.
    apply elem_of_dests_at in Hocc.
    destruct (Hresolves d) as [p Hp].
    intros Hnone.
    assert (Hin : {| title := dest_title d; start_page := p;
                     level := Z.of_nat n |}
                  ∈ omap (chapter_of reader (Z.of_nat n)) (dests_at n items)).
    { apply list_elem_of_omap. exists d. split; [done |].
      unfold chapter_of. by rewrite Hp. }
    rewrite Hnone in Hin. by apply not_elem_of_nil in Hin.
Qed.

Lemma found_level_is_available_witness :
  (find_chapter_bookmarks (sample_reader (fun _ => true)) 1
     (outline (sample_reader (fun _ => true))) 0).1 <> []
  /\ 1 ∈ get_available_bookmark_levels
           (outline (sample_reader (fun _ => true))) 0.
Proof.
  assert (Hfound : (find_chapter_bookmarks (sample_reader (fun _ => true)) 1
                      (outline (sample_reader (fun _ => true))) 0).1 <> [])
    by (vm_compute; discriminate).
  split; [exact Hfound |].
  exact (proj1 (found_level_is_available (sample_reader (fun _ => true)) 1
                  (outline (sample_reader (fun _ => true)))) Hfound).
Defined.

(** ** What a run prints *)

(** Take membership in a console apart, dropping the lines that cannot be
    the one looked for. *)
Ltac split_console H :=
  repeat match type of H with
         | _ ∈ _ :: _ => apply elem_of_cons in H as [H | H]; [try discriminate H |]
         | _ ∈ _ ++ _ => apply elem_of_app in H as [H | H]
         | _ ∈ [] => apply not_elem_of_nil in H; destruct H
         end.

Lemma sorted_nodup_increasing (l : list Z) :
  StronglySorted Z.le l -> NoDup l -> StronglySorted Z.lt l.
Proof.
  induction 1 as [|x l Hl IH Hx]; [constructor |].
  intros [Hnew Hnodup]%NoDup_cons. constructor; [by apply IH |].
  apply Forall_forall. intros y Hy. rewrite Forall_forall in Hx.
  specialize (Hx y Hy). assert (x <> y) by (by intros ->). lia.
Qed.

(** X8. When a run names the levels that have bookmarks, the list is in
    strictly ascending order and holds exactly the depths at which a
    Destination occurs; the run then found nothing at the requested level
    and wrote no file. *)
Theorem reported_levels_sorted_exact src save_ok chapter_level lvls :
  BookmarksAtLevels lvls
    ∈ (extract_chapters_from_pdf src save_ok chapter_level).2 ->
  exists reader,
    src = Parsed reader
    /\ (find_chapter_bookmarks reader chapter_level (outline reader) 0).1 = []
    /\ (extract_chapters_from_pdf src save_ok chapter_level).1 = []
    /\ StronglySorted Z.lt lvls
    /\ forall l, l ∈ lvls <->
                 exists n d, l = Z.of_nat n /\ occurs_at (outline reader) n d.
Proof.
  unfold extract_chapters_from_pdf.
  destruct src as [| |reader]; cbn [fst snd]; intros Hin;
    [split_console Hin | split_console Hin |].
  exists reader. split; [done |].
  destruct (outline reader) as [|item rest] eqn:Hout; cbn [fst snd] in *;
    [split_console Hin |].
  destruct ((find_chapter_bookmarks reader chapter_level (item :: rest) 0).1)
    as [|c cs] eqn:Hfound; cbn [fst snd] in *.
  - split; [done |]. split; [done |]. split_console Hin.
    { by apply find_chapter_bookmarks_prints in Hin as [t [=]]. }
    case_decide; split_console Hin.
    assert (Hlvls : lvls = merge_sort Z.le
                      (elements (get_available_bookmark_levels (item :: rest) 0)))
      by congruence.
    rewrite Hlvls. clear Hin Hlvls. split.
    + apply sorted_nodup_increasing.
      * apply StronglySorted_merge_sort; apply _.
      * rewrite merge_sort_Permutation. apply NoDup_elements.
    + intros l. rewrite merge_sort_Permutation, elem_of_elements,
        get_available_bookmark_levels_from.
      by setoid_rewrite Z.add_0_l.
  - destruct (sort_and_dedup (c :: cs)) as [|first others]; cbn [fst snd] in *;
      split_console Hin.
    + by apply find_chapter_bookmarks_prints in Hin as [t [=]].
    + by apply find_chapter_bookmarks_prints in Hin as [t [=]].
    + by apply extract_loop_prints in Hin.
Qed.

Lemma reported_levels_sorted_exact_witness :
  BookmarksAtLevels [0; 1]
    ∈ (extract_chapters_from_pdf (Parsed (sample_reader (fun _ => true)))
         (fun _ => true) 2).2
  /\ StronglySorted Z.lt [0; 1].
Proof.
  assert (Hin : BookmarksAtLevels [0; 1]
    ∈ (extract_chapters_from_pdf (Parsed (sample_reader (fun _ => true)))
         (fun _ => true) 2).2).
  { vm_compute. right. right. left. }
  split; [exact Hin |].
  destruct (reported_levels_sorted_exact _ _ _ _ Hin)
    as (reader & _ & _ & _ & Hsorted & _).
  exact Hsorted.
Defined.

Lemma last_two {A} (l : list A) (x y : A) : last (l ++ [x; y]) = Some y.
Proof.
  change [x; y] with ([x] ++ [y]). by rewrite (assoc_L (++) l [x] [y]), last_snoc.
Qed.

Lemma last_framed {A} (x y z : A) (l1 l2 : list A) :
  last (x :: l1 ++ y :: l2 ++ [z]) = Some z.
Proof.
  apply last_Some. exists (x :: l1 ++ y :: l2).
  by rewrite <- !app_comm_cons, <- (assoc_L (++)), <- app_comm_cons.
Qed.

(** X9. A run ends with the line that the extraction is complete exactly
    when the walker found a record at the requested level; every other run
    stops on the line of its early return. *)
Theorem extraction_complete_iff src save_ok chapter_level :
  last (extract_chapters_from_pdf src save_ok chapter_level).2 = Some Complete
  <-> exists reader,
        src = Parsed reader
        /\ (find_chapter_bookmarks reader chapter_level (outline reader) 0).1
           <> [].
Proof.
  unfold extract_chapters_from_pdf. destruct src as [| |reader]; cbn [snd].
  - split; [done | by intros (? & [=] & _)].
  - split; [done | by intros (? & [=] & _)].
  - destruct (outline reader) as [|item rest] eqn:Hout; cbn [snd].
    { split; [done |]. intros (r & [= <-] & Hfound). by rewrite Hout in Hfound. }
    destruct ((find_chapter_bookmarks reader chapter_level (item :: rest) 0).1)
      as [|c cs] eqn:Hfound; cbn [snd].
    + split.
      * rewrite app_comm_cons.
        case_decide; rewrite (last_two _ _ _); done.
      * intros (r & [= <-] & Hsome). by rewrite Hout, Hfound in Hsome.
    + split.
      * intros _. exists reader. by rewrite Hout, Hfound.
      * intros _. unfold sort_and_dedup.
        destruct (sort_by_start_page (c :: cs)) as [|first sorted] eqn:Hsorted.
        { by apply sort_by_start_page_nil in Hsorted. }
        rewrite unique_chapter_starts_cons. cbn [snd].
        apply last_framed.
Qed.

(** ** The resolver: more on sorting and deduplication *)

Lemma insert_by_start_page_front ch l :
  Forall (page_le ch) l -> insert_by_start_page ch l = ch :: l.
Proof.
  destruct 1 as [|x l Hx _]; simpl; [done |].
  unfold page_le in Hx. by rewrite (proj2 (Z.leb_le _ _) Hx).
Qed.

Lemma sort_by_start_page_sorted_id l :
  StronglySorted page_le l -> sort_by_start_page l = l.
Proof.
  induction 1 as [|x l Hl IH Hx]; simpl; [done |].
  by rewrite IH, insert_by_start_page_front.
Qed.

Lemma increasing_ascending l :
  StronglySorted page_lt l -> StronglySorted page_le l.
Proof.
  induction 1 as [|x l Hl IH Hx]; constructor; [done |].
  eapply Forall_impl; [exact Hx |]. unfold page_lt, page_le. intros; lia.
Qed.

Lemma unique_from_increasing_id l :
  StronglySorted page_lt l ->
  forall seen, Forall (fun ch => start_page ch ∉ seen) l ->
    unique_from seen l = l.
Proof.
  induction 1 as [|x l Hl IH Hx]; intros seen Hseen; simpl; [done |].
  apply Forall_cons in Hseen as [Hnew Hseen].
  rewrite decide_False by done. f_equal. apply IH.
  apply Forall_forall. intros ch Hch.
  rewrite Forall_forall in Hx, Hseen.
  specialize (Hx ch Hch). specialize (Hseen ch Hch). unfold page_lt in Hx.
  rewrite not_elem_of_union, not_elem_of_singleton. split; [lia | done].
Qed.

(** X10. Sorting and deduplicating twice changes nothing: the result of
    lines 106 to 116 is already sorted and free of duplicate pages. *)
Theorem sort_and_dedup_idempotent raw :
  sort_and_dedup (sort_and_dedup raw) = sort_and_dedup raw.
Proof.
  assert (Hinc : StronglySorted page_lt (sort_and_dedup raw))
    by apply unique_from_increasing, sort_by_start_page_sorted.
  unfold sort_and_dedup at 1.
  rewrite sort_by_start_page_sorted_id by by apply increasing_ascending.
  unfold unique_chapter_starts. apply unique_from_increasing_id; [done |].
  apply Forall_forall. intros ch _. apply not_elem_of_empty.
Qed.

Lemma elem_of_start_pages p l :
  p ∈ start_page <$> l <-> starting_at p l <> [].
Proof.
  induction l as [|ch l IH]; [by rewrite fmap_nil, elem_of_nil |].
  rewrite fmap_cons, elem_of_cons, starting_at_cons, IH.
  case_decide; split; auto; try done.
  intros [-> | ?]; done.
Qed.

Lemma increasing_pages_nodup l :
  StronglySorted page_lt l -> NoDup (start_page <$> l).
Proof.
  induction 1 as [|x l Hl IH Hx]; [constructor |].
  rewrite fmap_cons. constructor; [| done].
  intros (ch & Hpage & Hch)%list_elem_of_fmap.
  rewrite Forall_forall in Hx. specialize (Hx ch Hch).
  unfold page_lt in Hx. lia.
Qed.

(** X11. Deduplication loses no start page and leaves none twice: the
    pages of the result are exactly the pages of the records found, each
    once. *)
Theorem sort_and_dedup_pages raw :
  (forall p, p ∈ start_page <$> sort_and_dedup raw <-> p ∈ start_page <$> raw)
  /\ NoDup (start_page <$> sort_and_dedup raw)
  /\ (length (sort_and_dedup raw) <= length raw)%nat.
Proof.
  split; [| split].
  - intros p. rewrite !elem_of_start_pages.
    unfold sort_and_dedup, unique_chapter_starts.
    rewrite unique_from_first, decide_False by set_solver.
    rewrite sort_by_start_page_stable.
    by destruct (starting_at p raw).
  - apply increasing_pages_nodup, unique_from_increasing,
      sort_by_start_page_sorted.
  - rewrite <- (Permutation_length (sort_by_start_page_perm raw)).
    apply sublist_length, unique_from_sublist.
Qed.

Lemma sorted_next {A} (R : relation A) (l : list A) :
  StronglySorted R l ->
  forall i x y, l !! i = Some x -> l !! S i = Some y -> R x y.
Proof.
  induction 1 as [|a l Hl IH Ha]; intros i x y; [done |].
  destruct i as [|i]; simpl.
  - intros [= <-] Hy. rewrite Forall_forall in Ha.
    apply Ha. by eapply list_elem_of_lookup_2.
  - apply IH.
Qed.

(** X12. After deduplication a chapter that is followed by another one
    never has an empty span: the warning of line 140 can only concern the
    last chapter, when it starts past the end of the document. *)
Theorem empty_span_only_last reader raw i ch :
  sort_and_dedup raw !! i = Some ch ->
  check_range reader (start_page ch)
    (end_page_idx reader (sort_and_dedup raw) i) = RangeEmpty ->
  S i = length (sort_and_dedup raw)
  /\ Z.of_nat (num_pages reader) <= start_page ch.
Proof.
  intros Hch Hempty%check_range_empty.
  assert (Hinc : StronglySorted page_lt (sort_and_dedup raw))
    by apply unique_from_increasing, sort_by_start_page_sorted.
  destruct (sort_and_dedup raw !! (i + 1)%nat) as [next_chapter|] eqn:Hnext.
  - rewrite (end_page_idx_next _ _ _ _ Hnext) in Hempty.
    rewrite Nat.add_1_r in Hnext.
    pose proof (sorted_next _ _ Hinc _ _ _ Hch Hnext) as Hlt.
    unfold page_lt in Hlt. lia.
  - unfold end_page_idx in Hempty. rewrite Hnext in Hempty.
    apply lookup_ge_None in Hnext. apply lookup_lt_Some in Hch.
    unfold num_pages_total in Hempty. split; lia.
Qed.

Lemma empty_span_only_last_witness :
  sort_and_dedup [sample_chapter "A" 0 0; sample_chapter "Z" 7 0] !! 1%nat
    = Some (sample_chapter "Z" 7 0)
  /\ check_range (sample_reader (fun _ => true)) 7
       (end_page_idx (sample_reader (fun _ => true))
          (sort_and_dedup [sample_chapter "A" 0 0; sample_chapter "Z" 7 0]) 1)
     = RangeEmpty
  /\ 2%nat = length (sort_and_dedup
                       [sample_chapter "A" 0 0; sample_chapter "Z" 7 0])
  /\ 5 <= 7.
Proof.
  assert (H1 : sort_and_dedup [sample_chapter "A" 0 0; sample_chapter "Z" 7 0]
               !! 1%nat = Some (sample_chapter "Z" 7 0))
    by (vm_compute; reflexivity).
  assert (H2 : check_range (sample_reader (fun _ => true))
                 (start_page (sample_chapter "Z" 7 0))
                 (end_page_idx (sample_reader (fun _ => true))
                    (sort_and_dedup
                       [sample_chapter "A" 0 0; sample_chapter "Z" 7 0]) 1)
               = RangeEmpty)
    by (vm_compute; reflexivity).
  split; [exact H1 |]. split; [exact H2 |].
  exact (empty_span_only_last _ _ _ _ H1 H2).
Defined.

(** ** File names *)

Lemma read_digits_uint_digits d rest :
  read_digits rest = Decimal.Nil ->
  read_digits (uint_digits d ++ rest) = d.
Proof. intros Hrest. induction d; simpl; by f_equal. Qed.

Lemma read_digits_zeros k name :
  read_digits (replicate k 48%N ++ name) = Nat.iter k Decimal.D0 (read_digits name).
Proof. induction k as [|k IH]; simpl; [done | by rewrite IH]. Qed.

Lemma of_uint_zeros k d :
  Nat.of_uint (Nat.iter k Decimal.D0 d) = Nat.of_uint d.
Proof. induction k as [|k IH]; simpl; [done |]. by rewrite <- IH. Qed.

Lemma filename_index_format_03d n rest :
  read_digits rest = Decimal.Nil ->
  filename_index (format_03d n ++ rest) = n.
Proof.
  intros Hrest. unfold filename_index, format_03d. cbv zeta.
  rewrite <- (assoc_L (++)), read_digits_zeros, of_uint_zeros.
  rewrite read_digits_uint_digits by done. apply Unsigned.of_to.
Qed.

Lemma output_filename_index i t :
  filename_index (output_filename i t) = (i + 1)%nat.
Proof. unfold output_filename. by apply filename_index_format_03d. Qed.

(** X13. The number of a chapter can be read back from its file name: the
    leading digits of the name written for index [i] are those of
    [i + 1], also past 999 where the number takes more than three digits.
    Two chapters of a run therefore never get the same name. *)
Theorem filename_index_output_filename i t :
  filename_index (output_filename i t) = (i + 1)%nat
  /\ forall j t', output_filename i t = output_filename j t' -> i = j.
Proof.
  split; [apply output_filename_index |].
  intros j t' Heq. apply (f_equal filename_index) in Heq.
  rewrite !output_filename_index in Heq. lia.
Qed.

Lemma format_03d_width n :
  (3 <= length (format_03d n))%nat.
Proof. unfold format_03d. cbv zeta. rewrite length_app, length_replicate. lia. Qed.

(** ** The files of a run *)

Lemma extract_chapter_written reader save_ok chapter_starts i f :
  f ∈ (extract_chapter reader save_ok chapter_starts i).1 ->
  (extract_chapter reader save_ok chapter_starts i).1 = [f]
  /\ exists ch,
      chapter_starts !! i = Some ch
      /\ check_range reader (start_page ch)
           (end_page_idx reader chapter_starts i) = RangeOk
      /\ f.1 = output_filename i (title ch)
      /\ f.2 = copyable_pages reader (start_page ch)
                 (end_page_idx reader chapter_starts i)
      /\ f.2 <> []
      /\ save_ok f.1 = true.
Proof.
  intros Hf.
  destruct (extract_chapter_file _ _ _ _ _ Hf) as (ch & Hch & Hok & ->).
  revert Hf. rewrite (extract_chapter_valid _ _ _ _ _ Hch Hok).
  case_decide as Hpages; [by intros ?%not_elem_of_nil |].
  destruct (save_ok _) eqn:Hsave; [| by intros ?%not_elem_of_nil].
  intros _. split; [done |]. exists ch. by repeat split.
Qed.

Lemma run_files src save_ok chapter_level f :
  f ∈ (extract_chapters_from_pdf src save_ok chapter_level).1 ->
  exists reader chapter_starts i,
    src = Parsed reader
    /\ chapter_starts =
       sort_and_dedup
         (find_chapter_bookmarks reader chapter_level (outline reader) 0).1
    /\ (extract_chapters_from_pdf src save_ok chapter_level).1 =
       (extract_loop reader save_ok chapter_starts).1
    /\ f ∈ (extract_chapter reader save_ok chapter_starts i).1.
Proof.
  unfold extract_chapters_from_pdf.
  destruct src as [| |reader]; cbn [fst]; try by intros ?%not_elem_of_nil.
  destruct (outline reader) as [|item rest] eqn:Hout; cbn [fst];
    [by intros ?%not_elem_of_nil |].
  destruct ((find_chapter_bookmarks reader chapter_level (item :: rest) 0).1)
    as [|c cs] eqn:Hfound; cbn [fst]; [by intros ?%not_elem_of_nil |].
  destruct (sort_and_dedup (c :: cs)) as [|first others] eqn:Hstarts; cbn [fst];
    [by intros ?%not_elem_of_nil |].
  intros (i & _ & Hfile)%extract_loop_files.
  exists reader, (first :: others), i. by rewrite Hout, Hfound, Hstarts.
Qed.


Lemma seq_increasing j n : StronglySorted lt (seq j n).
Proof.
  revert j. induction n as [|n IH]; intros j; simpl; constructor; [done |].
  apply Forall_forall. intros k Hk%elem_of_seq. lia.
Qed.




(** X15. A document without pages gives no file, whatever its outline. *)
Theorem no_pages_no_files reader save_ok chapter_level :
  num_pages reader = O ->
  (extract_chapters_from_pdf (Parsed reader) save_ok chapter_level).1 = [].
Proof.
  intros Hzero.
  destruct ((extract_chapters_from_pdf (Parsed reader) save_ok chapter_level).1)
    as [|f fs] eqn:Hfiles; [done |].
  assert (Hf : f ∈ (extract_chapters_from_pdf (Parsed reader) save_ok
                      chapter_level).1) by (rewrite Hfiles; left).
  apply run_files in Hf as (r & chs & i & [= <-] & _ & _ & Hf).
  apply extract_chapter_written in Hf as (_ & ch & _ & Hok%check_range_ok & _).
  unfold num_pages_total in Hok. lia.
Qed.

Lemma no_pages_no_files_witness :
  num_pages {| outline := [bookmark "A" 0]; num_pages := 0;
               get_destination_page_number := fun _ => PageNum 0;
               page_copies := fun _ => true |} = O
  /\ (extract_chapters_from_pdf
        (Parsed {| outline := [bookmark "A" 0]; num_pages := 0;
                   get_destination_page_number := fun _ => PageNum 0;
                   page_copies := fun _ => true |}) (fun _ => true) 0).1 = [].
Proof.
  split; [reflexivity |].
  apply (no_pages_no_files
           {| outline := [bookmark "A" 0]; num_pages := 0;
              get_destination_page_number := fun _ => PageNum 0;
              page_copies := fun _ => true |} (fun _ => true) 0).
  reflexivity.
Defined.

Lemma written_numbers_sublist reader save_ok chapter_starts (indices : list nat) :
  (fun f : file => filename_index f.1)
    <$> (indices ≫= fun i => (extract_chapter reader save_ok chapter_starts i).1)
  `sublist_of` (fun i => (i + 1)%nat) <$> indices.
Proof.
  induction indices as [|i indices IH]; [done |].
  rewrite bind_cons, fmap_app, fmap_cons.
  destruct ((extract_chapter reader save_ok chapter_starts i).1)
    as [|f fs] eqn:Hfiles.
  - by apply sublist_cons.
  - assert (Hf : f ∈ (extract_chapter reader save_ok chapter_starts i).1)
      by (rewrite Hfiles; left).
    apply extract_chapter_written in Hf as (Hone & ch & _ & _ & Hname & _).
    rewrite Hfiles in Hone. injection Hone as ->.
    simpl. rewrite Hname.
    rewrite output_filename_index.
    by apply sublist_skip.
Qed.

Lemma increasing_sublist (l1 l2 : list nat) :
  l1 `sublist_of` l2 -> StronglySorted lt l2 -> StronglySorted lt l1.
Proof.
  induction 1 as [|x l1 l2 Hsub IH|x l1 l2 Hsub IH]; [done | |].
  - intros [Hl2 Hx]%StronglySorted_inv. constructor; [by apply IH |].
    apply Forall_forall. intros y Hy. rewrite Forall_forall in Hx.
    apply Hx. by eapply elem_of_sublist.
  - intros [Hl2 _]%StronglySorted_inv. by apply IH.
Qed.

Lemma increasing_nodup (l : list nat) : StronglySorted lt l -> NoDup l.
Proof.
  induction 1 as [|x l Hl IH Hx]; constructor; [| done].
  intros Hin. rewrite Forall_forall in Hx. specialize (Hx x Hin). lia.
Qed.

(** X16. The files of a run are written in the order of their numbers,
    which increase strictly, so the names of a run are pairwise distinct
    and no chapter overwrites another. *)
Theorem written_names_distinct src save_ok chapter_level :
  let files := (extract_chapters_from_pdf src save_ok chapter_level).1 in
  StronglySorted lt ((fun f : file => filename_index f.1) <$> files)
  /\ NoDup (fst <$> files).
Proof.
  cbv zeta.
  assert (Hinc : StronglySorted lt
            ((fun f : file => filename_index f.1)
               <$> (extract_chapters_from_pdf src save_ok chapter_level).1)).
  { destruct ((extract_chapters_from_pdf src save_ok chapter_level).1)
      as [|f fs] eqn:Hfiles; [constructor |].
    assert (Hf : f ∈ (extract_chapters_from_pdf src save_ok chapter_level).1)
      by (rewrite Hfiles; left).
    apply run_files in Hf as (reader & chs & i & _ & _ & Hrun & _).
    rewrite <- Hfiles, Hrun. unfold extract_loop. rewrite for_each_results.
    eapply increasing_sublist; [apply written_numbers_sublist |].
    eapply StronglySorted_fmap; [| apply seq_increasing].
    intros x y Hxy. simpl. lia. }
  split; [done |].
  apply increasing_nodup in Hinc.
  apply (NoDup_fmap_1 filename_index).
  by rewrite <- list_fmap_compose.
Qed.

(** ** Runs without failures *)

Section CleanRuns.
Variable reader : PdfReader.
Variable save_ok : str -> bool.
Hypothesis all_pages_copy : forall p, page_copies reader p = true.
Hypothesis all_saves_succeed : forall name, save_ok name = true.

Lemma copyable_pages_all first last :
  copyable_pages reader first last = seqZ first (last + 1 - first).
Proof.
  unfold copyable_pages.
  induction (seqZ first (last + 1 - first)) as [|p ps IH]; [done |].
  by rewrite filter_cons, decide_True, IH by done.
Qed.

Lemma in_document_range_ok chapter_starts i ch :
  StronglySorted page_lt chapter_starts ->
  Forall (fun c => 0 <= start_page c < Z.of_nat (num_pages reader))
    chapter_starts ->
  chapter_starts !! i = Some ch ->
  check_range reader (start_page ch) (end_page_idx reader chapter_starts i)
    = RangeOk.
Proof.
  intros Hinc Hin Hch. apply check_range_ok. unfold num_pages_total.
  pose proof (Forall_lookup_1 _ _ _ _ Hin Hch) as Hbounds. simpl in Hbounds.
  destruct (chapter_starts !! (i + 1)%nat) as [next_chapter|] eqn:Hnext.
  - rewrite (end_page_idx_next _ _ _ _ Hnext).
    pose proof (Forall_lookup_1 _ _ _ _ Hin Hnext) as Hbounds'.
    simpl in Hbounds'. rewrite Nat.add_1_r in Hnext.
    pose proof (sorted_next _ _ Hinc _ _ _ Hch Hnext) as Hlt.
    unfold page_lt in Hlt. lia.
  - unfold end_page_idx. rewrite Hnext. unfold num_pages_total. lia.
Qed.

Lemma clean_chapter chapter_starts i ch :
  StronglySorted page_lt chapter_starts ->
  Forall (fun c => 0 <= start_page c < Z.of_nat (num_pages reader))
    chapter_starts ->
  chapter_starts !! i = Some ch ->
  (extract_chapter reader save_ok chapter_starts i).1 =
  [(output_filename i (title ch),
    seqZ (start_page ch)
      (end_page_idx reader chapter_starts i + 1 - start_page ch))].
Proof.
  intros Hinc Hin Hch.
  pose proof (in_document_range_ok _ _ _ Hinc Hin Hch) as Hok.
  rewrite (extract_chapter_valid _ _ _ _ _ Hch Hok).
  rewrite copyable_pages_all, all_saves_succeed.
  apply check_range_ok in Hok.
  rewrite decide_False; [done |].
  rewrite seqZ_cons by lia. done.
Qed.

Lemma clean_pages_join suffix :
  forall prefix x,
    StronglySorted page_lt (prefix ++ x :: suffix) ->
    Forall (fun c => 0 <= start_page c < Z.of_nat (num_pages reader))
      (prefix ++ x :: suffix) ->
    seq (length prefix) (S (length suffix))
      ≫= (fun i => (extract_chapter reader save_ok (prefix ++ x :: suffix) i).1
                   ≫= snd)
    = seqZ (start_page x) (Z.of_nat (num_pages reader) - start_page x).
Proof.
  induction suffix as [|y suffix IH]; intros prefix x Hinc Hin.
  - cbn [length seq]. rewrite bind_singleton.
    rewrite (clean_chapter _ _ x Hinc Hin) by by apply list_lookup_middle.
    rewrite bind_singleton. cbn [snd].
    unfold end_page_idx.
    rewrite lookup_ge_None_2 by (rewrite length_app; simpl; lia).
    unfold num_pages_total. f_equal. lia.
  - cbn [length].
    change (seq (length prefix) (S (S (length suffix))))
      with (length prefix :: seq (S (length prefix)) (S (length suffix))).
    rewrite bind_cons.
    rewrite (clean_chapter _ _ x Hinc Hin) by by apply list_lookup_middle.
    rewrite bind_singleton. cbn [snd].
    assert (Hnext : (prefix ++ x :: y :: suffix) !! (length prefix + 1)%nat
                    = Some y).
    { rewrite (cons_middle x prefix), (assoc_L (++)).
      apply list_lookup_middle. rewrite length_app. simpl. lia. }
    rewrite (end_page_idx_next _ _ _ _ Hnext).
    assert (Hxy : start_page x < start_page y).
    { eapply (sorted_next _ _ Hinc (length prefix));
        [by apply list_lookup_middle |].
      by rewrite <- Nat.add_1_r. }
    assert (Hy : 0 <= start_page y < Z.of_nat (num_pages reader)).
    { apply (Forall_lookup_1 _ _ _ _ Hin Hnext). }
    specialize (IH (prefix ++ [x]) y).
    rewrite <- (assoc_L (++)), <- cons_middle in IH.
    rewrite length_app, Nat.add_1_r in IH. cbn [length] in IH.
    rewrite IH by done.
    replace (Z.of_nat (num_pages reader) - start_page x)
      with ((start_page y - start_page x)
            + (Z.of_nat (num_pages reader) - start_page y)) by lia.
    rewrite seqZ_app by lia.
    f_equal; f_equal; lia.
Qed.

Lemma clean_loop_length chapter_starts (indices : list nat) :
  StronglySorted page_lt chapter_starts ->
  Forall (fun c => 0 <= start_page c < Z.of_nat (num_pages reader))
    chapter_starts ->
  Forall (fun i => (i < length chapter_starts)%nat) indices ->
  length (indices ≫= fun i => (extract_chapter reader save_ok chapter_starts i).1)
  = length indices.
Proof.
  intros Hinc Hin. induction 1 as [|i indices Hi _ IH]; [done |].
  apply lookup_lt_is_Some in Hi as [ch Hch].
  rewrite bind_cons, length_app, IH, (clean_chapter _ _ ch) by done.
  done.
Qed.
End CleanRuns.

(** X17. When every bookmark of a deduplicated list points into the
    document, every page copies and every save succeeds, each chapter is
    written, and the pages of the files, put end to end, are the pages of
    the document from the first bookmark to the last page, each once: no
    page after the first bookmark is lost or written twice, and no page
    before it is written. *)
Theorem clean_run_covers_document reader save_ok first others :
  (forall p, page_copies reader p = true) ->
  (forall name, save_ok name = true) ->
  StronglySorted page_lt (first :: others) ->
  Forall (fun c => 0 <= start_page c < Z.of_nat (num_pages reader))
    (first :: others) ->
  let files := (extract_loop reader save_ok (first :: others)).1 in
  length files = length (first :: others)
  /\ files ≫= snd
     = seqZ (start_page first) (Z.of_nat (num_pages reader) - start_page first).
Proof.
  intros Hcopy Hsave Hinc Hin. cbv zeta. unfold extract_loop.
  rewrite for_each_results. split.
  - rewrite (clean_loop_length _ _ Hcopy Hsave) by
      (done || apply Forall_forall; intros i Hi%elem_of_seq; lia).
    apply length_seq.
  - rewrite <- (clean_pages_join reader save_ok Hcopy Hsave others [] first)
      by done.
    cbn [length app].
    generalize (seq 0 (S (length others))). intros indices.
    induction indices as [|i indices IH]; [done |].
    by rewrite !bind_cons, bind_app, IH.
Qed.

Lemma clean_run_covers_document_witness :
  (extract_loop (sample_reader (fun _ => true)) (fun _ => true)
     [sample_chapter "A" 1 0; sample_chapter "B" 2 0]).1 ≫= snd
  = seqZ 1 4.
Proof.
  apply (clean_run_covers_document (sample_reader (fun _ => true))
           (fun _ => true) (sample_chapter "A" 1 0) [sample_chapter "B" 2 0]).
  - reflexivity.
  - reflexivity.
  - repeat constructor.
  - repeat constructor; simpl; lia.
Defined.

(** ** Plain titles, and the sample of a stable sort *)

(** X18. A title without white space keeps its characters, with the
    invalid ones replaced by underscores, up to the first 150. *)
Theorem sanitize_filename_plain_title name :
  name <> [] ->
  Forall (fun c => is_space c = false) name ->
  sanitize_filename name = take 150 (sub_invalid name)
  /\ length (sanitize_filename name) = min 150 (length name).
Proof.
  intros Hne Hplain.
  rewrite sanitize_filename_no_space by done. split; [done |].
  unfold sub_invalid. by rewrite length_take, length_map.
Qed.

Lemma sanitize_filename_plain_title_witness :
  py "A/B:C" <> []
  /\ sanitize_filename (py "A/B:C") = take 150 (sub_invalid (py "A/B:C")).
Proof.
  split; [discriminate |].
  apply (sanitize_filename_plain_title (py "A/B:C")); [discriminate |].
  by repeat constructor.
Defined.

(** The sample for [stable_sort_unique]: three records, two on one page. *)
Lemma stable_sort_unique_witness :
  [sample_chapter "A" 0 0; sample_chapter "B" 2 0; sample_chapter "C" 2 0]
  = sort_by_start_page
      [sample_chapter "B" 2 0; sample_chapter "A" 0 0; sample_chapter "C" 2 0].
Proof.
  apply (stable_sort_unique
           [sample_chapter "B" 2 0; sample_chapter "A" 0 0;
            sample_chapter "C" 2 0]
           [sample_chapter "A" 0 0; sample_chapter "B" 2 0;
            sample_chapter "C" 2 0]).
  - repeat constructor; unfold page_le; simpl; lia.
  - intros p. rewrite !starting_at_cons. simpl.
    repeat case_decide; (done || lia).
Defined.
